(** * Biodesign metadata exchange: the metadata-versioning core

    A shallow embedding of [BioDesignMetadataLibrary.py] (checksums, the
    changelog of reversible patches, revision reconstruction, the encrypted
    export/import boundary), of the provider-side check
    [LatticeSynthProviderTool.design_and_metadata_match] with the [/order]
    endpoint, and of the argument validation of [CreateOperation].

    Python values are modelled as follows.
    - [str] is a list of Unicode code points ([Z]); [bytes] is a list of
      [Byte.byte].
    - An exception is a value of [exn]; a call that may raise returns a
      [result].
    - Files live in a store [gmap str str] from paths to text.
    - The clock ([datetime.now]), the UUID generator, the random IV
      ([os.urandom]) and the environment ([os.getenv]) are explicit inputs.
    - The codecs and primitives with a fixed definition (UTF-8, hex,
      base64, PKCS7, SHA-256, AES in CBC mode) are modelled after their
      standards and run on test vectors at the end of the file.
    - The other code the library calls but does not contain
      ([str.lower], [json], [diff_match_patch], the GenBank reader) is an
      interface (a type class); the properties assumed of it are stated in
      separate law classes. *)

From Stdlib Require Import ZArith Lia List Bool Ascii String.
From Stdlib Require Strings.Byte.
From stdpp Require Import base option list gmap countable.
Import ListNotations.

Local Open Scope Z_scope.

(** ** Python values *)

Module Py.

Abbreviation str := (list Z).
Abbreviation byte := Init.Byte.byte.
Abbreviation bytes := (list Init.Byte.byte).

(** A string literal of the source, as code points. *)
Definition lit (s : string) : str :=
  map (fun a => Z.of_N (N_of_ascii a)) (list_ascii_of_string s).

(** The exception classes the modelled code can raise. *)
Inductive exn :=
| ValueError            (* raised by the library and by [cryptography] *)
| BinasciiError         (* binascii.Error, from base64.b64decode *)
| UnicodeEncodeError
| UnicodeDecodeError
| JSONDecodeError
| TypeError
| AttributeError
| FileNotFoundError.

(** [isinstance(e, ValueError)], following the class hierarchy of the
    interpreter: [binascii.Error], [UnicodeError] and
    [json.JSONDecodeError] derive from [ValueError]; [FileNotFoundError]
    derives from [OSError]. *)
Definition is_ValueError (e : exn) : bool :=
  match e with
  | ValueError | BinasciiError | UnicodeEncodeError
  | UnicodeDecodeError | JSONDecodeError => true
  | TypeError | AttributeError | FileNotFoundError => false
  end.

Inductive result (A : Type) :=
| Ok (a : A)
| Raise (e : exn).
Arguments Ok {A} a.
Arguments Raise {A} e.

Definition bind {A B} (m : result A) (k : A -> result B) : result B :=
  match m with
  | Ok a => k a
  | Raise e => Raise e
  end.

(** Whether a call returned normally. *)
Definition is_ok {A} (r : result A) : bool :=
  match r with
  | Ok _ => true
  | Raise _ => false
  end.

Definition byte_of_Z (z : Z) : byte :=
  match Byte.of_N (Z.to_N (z mod 256)) with
  | Some b => b
  | None => Init.Byte.x00
  end.

Definition Z_of_byte (b : byte) : Z := Z.of_N (Byte.to_N b).

(** [a ^ b] on bytes, and on byte strings element by element. *)
Definition xor_byte (a b : byte) : byte :=
  byte_of_Z (Z.lxor (Z_of_byte a) (Z_of_byte b)).

Fixpoint xor_bytes (a b : bytes) : bytes :=
  match a, b with
  | x :: a', y :: b' => xor_byte x y :: xor_bytes a' b'
  | _, _ => []
  end.

End Py.
Export Py.

#[global] Instance result_ret : MRet result := fun _ a => Ok a.
#[global] Instance result_bind : MBind result := fun _ _ k m => Py.bind m k.

#[global] Instance exn_eq_dec : EqDecision exn.
Proof. solve_decision. Defined.
#[global] Instance byte_eq_dec : EqDecision byte := Byte.byte_eq_dec.

(** ** Text and binary codecs of the interpreter and its standard library *)

(** [str.encode('utf-8')] and [bytes.decode('utf-8')], both strict. *)
Module Utf8.

Definition is_surrogate (c : Z) : bool := (0xD800 <=? c) && (c <=? 0xDFFF).

Definition cont (x : Z) : byte := byte_of_Z (0x80 + x mod 64).

Definition encode_char (c : Z) : result bytes :=
  if c <? 0 then Raise UnicodeEncodeError
  else if c <? 0x80 then Ok [byte_of_Z c]
  else if c <? 0x800 then Ok [byte_of_Z (0xC0 + c / 64); cont c]
  else if c <? 0x10000 then
    if is_surrogate c then Raise UnicodeEncodeError
    else Ok [byte_of_Z (0xE0 + c / 4096); cont (c / 64); cont c]
  else if c <? 0x110000 then
    Ok [byte_of_Z (0xF0 + c / 262144); cont (c / 4096); cont (c / 64); cont c]
  else Raise UnicodeEncodeError.

Fixpoint encode (s : str) : result bytes :=
  match s with
  | [] => Ok []
  | c :: s' =>
      bs ← encode_char c;
      rest ← encode s';
      Ok (bs ++ rest)
  end.

Definition is_cont (b : byte) : bool :=
  (0x80 <=? Z_of_byte b) && (Z_of_byte b <? 0xC0).

Definition payload (b : byte) : Z := Z_of_byte b - 0x80.

Fixpoint decode (bs : bytes) : result str :=
  match bs with
  | [] => Ok []
  | b0 :: r0 =>
      let z0 := Z_of_byte b0 in
      if z0 <? 0x80 then
        s ← decode r0; Ok (z0 :: s)
      else if z0 <? 0xC0 then Raise UnicodeDecodeError
      else if z0 <? 0xE0 then
        match r0 with
        | b1 :: r1 =>
            let c := (z0 - 0xC0) * 64 + payload b1 in
            if is_cont b1 && (0x80 <=? c) then
              s ← decode r1; Ok (c :: s)
            else Raise UnicodeDecodeError
        | _ => Raise UnicodeDecodeError
        end
      else if z0 <? 0xF0 then
        match r0 with
        | b1 :: b2 :: r2 =>
            let c := (z0 - 0xE0) * 4096 + payload b1 * 64 + payload b2 in
            if is_cont b1 && is_cont b2 && (0x800 <=? c)
               && negb (is_surrogate c) then
              s ← decode r2; Ok (c :: s)
            else Raise UnicodeDecodeError
        | _ => Raise UnicodeDecodeError
        end
      else if z0 <? 0xF8 then
        match r0 with
        | b1 :: b2 :: b3 :: r3 =>
            let c := (z0 - 0xF0) * 262144 + payload b1 * 4096
                     + payload b2 * 64 + payload b3 in
            if is_cont b1 && is_cont b2 && is_cont b3
               && (0x10000 <=? c) && (c <? 0x110000) then
              s ← decode r3; Ok (c :: s)
            else Raise UnicodeDecodeError
        | _ => Raise UnicodeDecodeError
        end
      else Raise UnicodeDecodeError
  end.

(** [s.encode('ascii')], used by [base64.b64decode] on a [str] argument
    (it reports a non-ASCII character as a [ValueError]). *)
Fixpoint encode_ascii (s : str) : result bytes :=
  match s with
  | [] => Ok []
  | c :: s' =>
      if (0 <=? c) && (c <? 0x80) then
        rest ← encode_ascii s'; Ok (byte_of_Z c :: rest)
      else Raise ValueError
  end.

End Utf8.

(** [bytes.hex()], as used by [hexdigest]. *)
Module Hex.

Definition digit (n : Z) : Z := if n <? 10 then 48 + n else 87 + n.

Definition of_byte (b : byte) : str :=
  [digit (Z_of_byte b / 16); digit (Z_of_byte b mod 16)].

Definition of_bytes (bs : bytes) : str := concat (map of_byte bs).

End Hex.

(** [hashlib.sha256], after FIPS 180-4. Words are 32-bit values in [Z]. *)
Module Sha256.

Definition wrap (x : Z) : Z := x mod 2^32.
Definition add (x y : Z) : Z := wrap (x + y).
Definition rotr (n x : Z) : Z :=
  wrap (Z.lor (Z.shiftr x n) (Z.shiftl x (32 - n))).
Definition shr (n x : Z) : Z := Z.shiftr x n.
Definition xor3 (x y z : Z) : Z := Z.lxor (Z.lxor x y) z.

Definition Ch (x y z : Z) : Z :=
  Z.lxor (Z.land x y) (Z.land (Z.lxor x 0xFFFFFFFF) z).
Definition Maj (x y z : Z) : Z :=
  xor3 (Z.land x y) (Z.land x z) (Z.land y z).
Definition Sigma0 (x : Z) : Z := xor3 (rotr 2 x) (rotr 13 x) (rotr 22 x).
Definition Sigma1 (x : Z) : Z := xor3 (rotr 6 x) (rotr 11 x) (rotr 25 x).
Definition sigma0 (x : Z) : Z := xor3 (rotr 7 x) (rotr 18 x) (shr 3 x).
Definition sigma1 (x : Z) : Z := xor3 (rotr 17 x) (rotr 19 x) (shr 10 x).

(** The constants are derived as the standard defines them: the first 32
    bits of the fractional parts of the cube roots (round constants) and of
    the square roots (initial hash value) of the first primes. *)
Definition is_prime (n : nat) : bool :=
  forallb (fun d => negb (n mod d =? 0)%nat) (seq 2 (n - 2)).

Definition primes : list Z :=
  map Z.of_nat (filter is_prime (seq 2 310)).

(** The largest [r] below [2 ^ k] above the given [r] with [r ^ 3 <= n]. *)
Fixpoint cube_root (k : nat) (n r : Z) : Z :=
  match k with
  | O => r
  | S k' =>
      let r' := r + 2 ^ Z.of_nat k' in
      if r' ^ 3 <=? n then cube_root k' n r' else cube_root k' n r
  end.

Definition K : list Z :=
  map (fun p => wrap (cube_root 40 (p * 2 ^ 96) 0)) primes.

Definition H0 : list Z :=
  map (fun p => wrap (Z.sqrt (p * 2 ^ 64))) (firstn 8 primes).

(** Big-endian bytes of a value, most significant first. *)
Fixpoint be_bytes (n : nat) (x : Z) : bytes :=
  match n with
  | O => []
  | S n' => byte_of_Z (x / 256 ^ Z.of_nat n') :: be_bytes n' x
  end.

Definition be_word (bs : bytes) : Z :=
  fold_left (fun acc b => acc * 256 + Z_of_byte b) bs 0.

(** The message, a 1 bit, zeros up to 56 modulo 64, the bit length. *)
Definition pad (msg : bytes) : bytes :=
  let len := Z.of_nat (length msg) in
  let zeros := Z.to_nat ((55 - len) mod 64) in
  msg ++ [byte_of_Z 0x80] ++ repeat (byte_of_Z 0) zeros
      ++ be_bytes 8 (8 * len).

Fixpoint words (n : nat) (bs : bytes) : list Z :=
  match n with
  | O => []
  | S n' => be_word (firstn 4 bs) :: words n' (skipn 4 bs)
  end.

Definition w (l : list Z) (i : nat) : Z := nth i l 0.

Definition schedule (block : list Z) : list Z :=
  fold_left
    (fun ws t =>
       ws ++ [add (add (sigma1 (w ws (t - 2))) (w ws (t - 7)))
                  (add (sigma0 (w ws (t - 15))) (w ws (t - 16)))])
    (seq 16 48) block.

Definition round (st : list Z) (kw : Z * Z) : list Z :=
  match st with
  | [a; b; c; d; e; f; g; h] =>
      let t1 := add (add (add h (Sigma1 e)) (add (Ch e f g) (fst kw))) (snd kw) in
      let t2 := add (Sigma0 a) (Maj a b c) in
      [add t1 t2; a; b; c; add d t1; e; f; g]
  | _ => st
  end.

Definition compress (h : list Z) (block : list Z) : list Z :=
  let st := fold_left round (combine K (schedule block)) h in
  map (fun p => add (fst p) (snd p)) (combine h st).

Fixpoint blocks (n : nat) (bs : bytes) : list (list Z) :=
  match n with
  | O => []
  | S n' => words 16 (firstn 64 bs) :: blocks n' (skipn 64 bs)
  end.

Definition digest (msg : bytes) : bytes :=
  let p := pad msg in
  let h := fold_left compress (blocks (length p / 64) p) H0 in
  concat (map (be_bytes 4) h).

Definition hexdigest (msg : bytes) : str := Hex.of_bytes (digest msg).

End Sha256.

(** [base64.b64encode] and [base64.b64decode] (default arguments: standard
    alphabet, [validate=False]), after [binascii.b2a_base64] and the
    non-strict mode of [binascii.a2b_base64]. *)
Module Base64.

Definition pad_char : byte := byte_of_Z 61.

Definition char (i : Z) : byte :=
  byte_of_Z (if i <? 26 then 65 + i
             else if i <? 52 then 71 + i
             else if i <? 62 then i - 4
             else if i =? 62 then 43 else 47).

Definition index (b : byte) : option Z :=
  let c := Z_of_byte b in
  if (65 <=? c) && (c <=? 90) then Some (c - 65)
  else if (97 <=? c) && (c <=? 122) then Some (c - 71)
  else if (48 <=? c) && (c <=? 57) then Some (c + 4)
  else if c =? 43 then Some 62
  else if c =? 47 then Some 63
  else None.

Fixpoint b2a_base64 (data : bytes) : bytes :=
  match data with
  | [] => []
  | [a] =>
      let x := Z_of_byte a in
      [char (x / 4); char (x mod 4 * 16); pad_char; pad_char]
  | [a; b] =>
      let x := Z_of_byte a in
      let y := Z_of_byte b in
      [char (x / 4); char (x mod 4 * 16 + y / 16); char (y mod 16 * 4);
       pad_char]
  | a :: b :: c :: rest =>
      let x := Z_of_byte a in
      let y := Z_of_byte b in
      let z := Z_of_byte c in
      char (x / 4) :: char (x mod 4 * 16 + y / 16)
        :: char (y mod 16 * 4 + z / 64) :: char (z mod 64)
        :: b2a_base64 rest
  end.

(** The decoding loop: [quad_pos] counts the characters of the current
    group of four, [leftchar] holds the bits not yet written, [pads]
    counts the padding characters seen since the last data character.
    Characters outside the alphabet are skipped. *)
Fixpoint a2b_base64 (quad_pos leftchar pads : Z) (out : bytes)
         (data : bytes) : result bytes :=
  match data with
  | [] => if quad_pos =? 0 then Ok out else Raise BinasciiError
  | ch :: rest =>
      if Z_of_byte ch =? 61 then
        if 2 <=? quad_pos then
          if 4 <=? quad_pos + (pads + 1) then Ok out
          else a2b_base64 quad_pos leftchar (pads + 1) out rest
        else a2b_base64 quad_pos leftchar pads out rest
      else
        match index ch with
        | None => a2b_base64 quad_pos leftchar pads out rest
        | Some this_ch =>
            if quad_pos =? 0 then
              a2b_base64 1 this_ch 0 out rest
            else if quad_pos =? 1 then
              a2b_base64 2 (this_ch mod 16) 0
                (out ++ [byte_of_Z (leftchar * 4 + this_ch / 16)]) rest
            else if quad_pos =? 2 then
              a2b_base64 3 (this_ch mod 4) 0
                (out ++ [byte_of_Z (leftchar * 16 + this_ch / 4)]) rest
            else
              a2b_base64 0 0 0
                (out ++ [byte_of_Z (leftchar * 64 + this_ch)]) rest
        end
  end.

(** The check that [index] inverts [char] at [i], on a character that is
    ASCII and is not the padding character. *)
Definition char_ok (i : Z) : bool :=
  match index (char i) with
  | Some j => (j =? i) && negb (Z_of_byte (char i) =? 61)
              && (Z_of_byte (char i) <? 128)
  | None => false
  end.

Definition b64encode (data : bytes) : bytes := b2a_base64 data.

Definition b64decode (s : str) : result bytes :=
  data ← Utf8.encode_ascii s;
  a2b_base64 0 0 0 [] data.

End Base64.

(** [cryptography.hazmat.primitives.padding.PKCS7(128)]: [pad] is
    [padder.update(data) + padder.finalize()], [unpad] is
    [unpadder.update(data) + unpadder.finalize()]. *)
Module Pkcs7.

Definition block_size : nat := 16.

Definition pad (data : bytes) : bytes :=
  let n := (block_size - length data mod block_size)%nat in
  data ++ repeat (byte_of_Z (Z.of_nat n)) n.

Definition unpad (data : bytes) : result bytes :=
  let len := length data in
  if (len =? 0)%nat || negb (len mod block_size =? 0)%nat then
    Raise ValueError
  else
    let p := Z_of_byte (last data Init.Byte.x00) in
    let n := Z.to_nat p in
    if (1 <=? p) && (p <=? Z.of_nat block_size)
       && forallb (fun b => Z_of_byte b =? p) (skipn (len - n) data)
    then Ok (firstn (len - n) data)
    else Raise ValueError.

End Pkcs7.

(** The AES block function, after FIPS 197. The state is the list of the
    16 bytes of a block, column by column. *)
Module Aes.

Definition zero : byte := byte_of_Z 0.
Definition xor : byte -> byte -> byte := xor_byte.

(** Multiplication by [x] in GF(2^8), modulo [x^8 + x^4 + x^3 + x + 1]. *)
Definition xtime (b : byte) : byte :=
  let x := Z_of_byte b in
  byte_of_Z (Z.lxor (2 * x) (if 128 <=? x then 0x11b else 0)).

(** The product of [a] by the low [n] bits of [b], added to [acc]. *)
Fixpoint gmul_aux (n : nat) (a : byte) (b : Z) (acc : byte) : byte :=
  match n with
  | O => acc
  | S n' =>
      if b =? 0 then acc
      else gmul_aux n' (xtime a) (b / 2)
                    (if Z.odd b then xor acc a else acc)
  end.

Definition gmul (a : byte) (b : Z) : byte := gmul_aux 8 a b zero.

Fixpoint gpow (n : nat) (a : byte) : byte :=
  match n with
  | O => byte_of_Z 1
  | S n' => gmul (gpow n' a) (Z_of_byte a)
  end.

(** The multiplicative inverse, with the inverse of zero being zero. *)
Definition ginv (a : byte) : byte := gpow 254 a.

Definition rotl (x n : Z) : Z := (x * 2 ^ n) mod 256 + x / 2 ^ (8 - n).

(** The substitution of a byte: the affine map of its inverse. *)
Definition sbox_formula (b : byte) : byte :=
  let x := Z_of_byte (ginv b) in
  byte_of_Z (Z.lxor (Z.lxor (Z.lxor x (rotl x 1))
                            (Z.lxor (rotl x 2) (rotl x 3)))
                    (Z.lxor (rotl x 4) 0x63)).

Definition inv_sbox_formula (b : byte) : byte :=
  let x := Z_of_byte b in
  ginv (byte_of_Z (Z.lxor (Z.lxor (rotl x 1) (rotl x 3))
                          (Z.lxor (rotl x 6) 0x05))).

Definition all_bytes : bytes := map byte_of_Z (map Z.of_nat (seq 0 256)).

(** The two substitutions, tabulated. *)
Definition sbox_table : bytes :=
  Eval vm_compute in map sbox_formula all_bytes.

Definition inv_sbox_table : bytes :=
  Eval vm_compute in map inv_sbox_formula all_bytes.

Definition sbox (b : byte) : byte :=
  nth (Z.to_nat (Z_of_byte b)) sbox_table zero.

Definition inv_sbox (b : byte) : byte :=
  nth (Z.to_nat (Z_of_byte b)) inv_sbox_table zero.

Definition sub_bytes (st : bytes) : bytes := map sbox st.
Definition inv_sub_bytes (st : bytes) : bytes := map inv_sbox st.

(** Row [r] of the state is rotated by [r] columns. *)
Definition shift_rows (st : bytes) : bytes :=
  match st with
  | [s0; s1; s2; s3; s4; s5; s6; s7; s8; s9; sa; sb; sc; sd; se; sf] =>
      [s0; s5; sa; sf; s4; s9; se; s3; s8; sd; s2; s7; sc; s1; s6; sb]
  | _ => st
  end.

Definition inv_shift_rows (st : bytes) : bytes :=
  match st with
  | [s0; s1; s2; s3; s4; s5; s6; s7; s8; s9; sa; sb; sc; sd; se; sf] =>
      [s0; sd; sa; s7; s4; s1; se; sb; s8; s5; s2; sf; sc; s9; s6; s3]
  | _ => st
  end.

(** The sum of the products of four bytes by four constants. *)
Definition dot (c0 c1 c2 c3 : Z) (a b c d : byte) : byte :=
  xor (xor (gmul a c0) (gmul b c1)) (xor (gmul c c2) (gmul d c3)).

Definition mix_column (a b c d : byte) : bytes :=
  [dot 2 3 1 1 a b c d; dot 1 2 3 1 a b c d;
   dot 1 1 2 3 a b c d; dot 3 1 1 2 a b c d].

Definition inv_mix_column (a b c d : byte) : bytes :=
  [dot 14 11 13 9 a b c d; dot 9 14 11 13 a b c d;
   dot 13 9 14 11 a b c d; dot 11 13 9 14 a b c d].

(** One byte of the inverse column map applied to the column map. *)
Abbreviation unmix n0 n1 n2 n3 a b c d :=
  (dot n0 n1 n2 n3 (dot 2 3 1 1 a b c d) (dot 1 2 3 1 a b c d)
                   (dot 1 1 2 3 a b c d) (dot 3 1 1 2 a b c d)).

Definition columns (f : byte -> byte -> byte -> byte -> bytes) (st : bytes)
  : bytes :=
  match st with
  | [s0; s1; s2; s3; s4; s5; s6; s7; s8; s9; sa; sb; sc; sd; se; sf] =>
      f s0 s1 s2 s3 ++ f s4 s5 s6 s7 ++ f s8 s9 sa sb ++ f sc sd se sf
  | _ => st
  end.

Definition mix_columns : bytes -> bytes := columns mix_column.
Definition inv_mix_columns : bytes -> bytes := columns inv_mix_column.

(** The state plus the round key of round [r] of the key schedule [w]. *)
Definition add_round_key (w : bytes) (r : nat) (st : bytes) : bytes :=
  imap (fun i b => xor b (nth (16 * r + i)%nat w zero)) st.

(** The key schedule: [nk] is the number of 32-bit words of the key. Word
    [i] is word [i - nk] plus a function of word [i - 1]. *)
Definition schedule_word (nk : nat) (w : bytes) (i : nat) : bytes :=
  let at_ (k : nat) := nth k w zero in
  let t0 := at_ (4 * i - 4)%nat in
  let t1 := at_ (4 * i - 3)%nat in
  let t2 := at_ (4 * i - 2)%nat in
  let t3 := at_ (4 * i - 1)%nat in
  let temp :=
    if (i mod nk =? 0)%nat then
      [xor (sbox t1) (gpow (i / nk - 1)%nat (byte_of_Z 2)); sbox t2; sbox t3;
       sbox t0]
    else if (6 <? nk)%nat && (i mod nk =? 4)%nat then
      [sbox t0; sbox t1; sbox t2; sbox t3]
    else [t0; t1; t2; t3] in
  xor_bytes [at_ (4 * (i - nk))%nat; at_ (4 * (i - nk) + 1)%nat;
                 at_ (4 * (i - nk) + 2)%nat; at_ (4 * (i - nk) + 3)%nat] temp.

Definition key_expansion (key : bytes) : bytes :=
  let nk := (length key / 4)%nat in
  fold_left (fun w i => w ++ schedule_word nk w i)
            (seq nk (4 * (nk + 7) - nk)%nat) key.

Definition round (w : bytes) (r : nat) (st : bytes) : bytes :=
  add_round_key w r (mix_columns (shift_rows (sub_bytes st))).

Definition inv_round (w : bytes) (r : nat) (st : bytes) : bytes :=
  inv_sub_bytes (inv_shift_rows (inv_mix_columns (add_round_key w r st))).

(** Rounds [r], [r + 1], ... ([n] of them), and their inverses in the
    opposite order. *)
Fixpoint rounds (w : bytes) (n r : nat) (st : bytes) : bytes :=
  match n with
  | O => st
  | S n' => rounds w n' (S r) (round w r st)
  end.

Fixpoint inv_rounds (w : bytes) (n r : nat) (st : bytes) : bytes :=
  match n with
  | O => st
  | S n' => inv_round w r (inv_rounds w n' (S r) st)
  end.

(** The cipher and its inverse on one block, under the key schedule [w]
    with [nr] rounds. *)
Definition cipher (w : bytes) (nr : nat) (block : bytes) : bytes :=
  let st := add_round_key w 0 block in
  let st := rounds w (nr - 1) 1 st in
  add_round_key w nr (shift_rows (sub_bytes st)).

Definition inv_cipher (w : bytes) (nr : nat) (block : bytes) : bytes :=
  let st := inv_sub_bytes (inv_shift_rows (add_round_key w nr block)) in
  let st := inv_rounds w (nr - 1) 1 st in
  add_round_key w 0 st.

(** The number of rounds for a key: 10, 12 or 14. *)
Definition rounds_of (key : bytes) : nat := (length key / 4 + 6)%nat.

Definition encrypt_block (key block : bytes) : bytes :=
  cipher (key_expansion key) (rounds_of key) block.

Definition decrypt_block (key block : bytes) : bytes :=
  inv_cipher (key_expansion key) (rounds_of key) block.

End Aes.

(** [Cipher(algorithms.AES(key), modes.CBC(iv))] with its encryptor and
    decryptor ([update(data) + finalize()]). *)
Module Cbc.

Definition block_len : nat := 16.

Fixpoint chunks (n : nat) (data : bytes) : list bytes :=
  match n with
  | O => []
  | S n' => firstn block_len data :: chunks n' (skipn block_len data)
  end.

(** [algorithms.AES(key)] accepts 128, 192 and 256-bit keys. *)
Definition valid_key (key : bytes) : bool :=
  let n := length key in
  (n =? 16)%nat || (n =? 24)%nat || (n =? 32)%nat.

(** The checks made when the cipher object is built. *)
Definition cipher (key iv : bytes) : result unit :=
  if negb (valid_key key) then Raise ValueError
  else if negb (length iv =? block_len)%nat then Raise ValueError
  else Ok tt.

(** Chaining: each block is added to the previous ciphertext block (the
    IV for the first) before it is encrypted. [w] and [nr] are the key
    schedule and the number of rounds. *)
Fixpoint encrypt_blocks (w : bytes) (nr : nat) (prev : bytes)
         (blocks : list bytes) : list bytes :=
  match blocks with
  | [] => []
  | p :: rest =>
      let c := Aes.cipher w nr (xor_bytes p prev) in
      c :: encrypt_blocks w nr c rest
  end.

Fixpoint decrypt_blocks (w : bytes) (nr : nat) (prev : bytes)
         (blocks : list bytes) : list bytes :=
  match blocks with
  | [] => []
  | c :: rest =>
      xor_bytes (Aes.inv_cipher w nr c) prev
        :: decrypt_blocks w nr c rest
  end.

(** Without padding, [finalize] rejects data that is not a whole
    number of blocks. *)
Definition encrypt (key iv data : bytes) : result bytes :=
  if negb (length data mod block_len =? 0)%nat then Raise ValueError
  else Ok (concat (encrypt_blocks (Aes.key_expansion key)
                     (Aes.rounds_of key) iv
                     (chunks (length data / block_len) data))).

Definition decrypt (key iv data : bytes) : result bytes :=
  if negb (length data mod block_len =? 0)%nat then Raise ValueError
  else Ok (concat (decrypt_blocks (Aes.key_expansion key)
                     (Aes.rounds_of key) iv
                     (chunks (length data / block_len) data))).

End Cbc.


(** ** JSON documents and the interfaces of the libraries used *)

(** A value [json.loads] can return. A [dict] is a list of key/value pairs
    in insertion order; numbers are integers. *)
#[warnings="-register-all"]
Inductive json :=
| JNull
| JBool (b : bool)
| JNum (n : Z)
| JStr (s : str)
| JArr (items : list json)
| JObj (fields : list (str * json)).

Module Dict.

(** [d.get(key)] *)
Fixpoint get (key : str) (d : list (str * json)) : option json :=
  match d with
  | [] => None
  | (k, v) :: d' => if bool_decide (k = key) then Some v else get key d'
  end.

(** Every key of [d] is one of [names]. *)
Definition keys_within (names : list str) (d : list (str * json)) : bool :=
  forallb (fun kv => bool_decide (fst kv ∈ names)) d.

End Dict.

(** Truth value of a JSON value, as [if value:] tests it. *)
Definition truthy (v : json) : bool :=
  match v with
  | JNull => false
  | JBool b => b
  | JNum n => negb (n =? 0)
  | JStr s => negb (bool_decide (s = []))
  | JArr items => negb (bool_decide (length items = 0%nat))
  | JObj fields => negb (bool_decide (length fields = 0%nat))
  end.

(** [value == s] for a string [s]: only an equal string compares equal. *)
Definition eq_str (v : json) (s : str) : bool :=
  match v with
  | JStr t => bool_decide (t = s)
  | _ => false
  end.

(** [str.lower()], the Unicode lowercase mapping of the interpreter. *)
Class Unicode := {
  str_lower : str -> str
}.

(** [json.dumps] and [json.loads] ([json.load] on an open file). *)
Class JsonCodec := {
  json_dumps : json -> str;
  json_loads : str -> result json
}.

(** The [diff_match_patch] object. [patch_apply] returns the new text and
    one success flag per patch. *)
Class DiffMatchPatch := {
  patch : Type;
  patch_make : str -> str -> list patch;
  patch_toText : list patch -> str;
  patch_fromText : str -> result (list patch);
  patch_apply : list patch -> str -> str * list bool
}.

(** The same object reporting other success flags: [flags patches text]
    instead of the flags of [patch_apply]. *)
Definition with_flags `{D : DiffMatchPatch}
           (flags : list patch -> str -> list bool) : DiffMatchPatch :=
  {| patch := patch;
     patch_make := patch_make;
     patch_toText := patch_toText;
     patch_fromText := patch_fromText;
     patch_apply := fun patches text =>
                      (fst (patch_apply patches text), flags patches text) |}.

(** [str(SeqIO.read(handle, "genbank").seq)] on the text of a file. *)
Class GenBank := {
  genbank_seq : str -> result str
}.

(** ** What is assumed of the libraries

    Each law is a documented behaviour of the library concerned; the
    theorems below name the laws they rest on. *)

(** Lowercasing a lowercased string changes nothing. *)
Class UnicodeLaws `{Unicode} := {
  str_lower_idempotent : forall s, str_lower (str_lower s) = str_lower s
}.

(** A document written by [json.dumps] is read back by [json.loads]. *)
Class JsonCodecLaws `{JsonCodec} := {
  json_loads_dumps : forall j, json_loads (json_dumps j) = Ok j
}.

(** [patch_toText] and [patch_fromText] are inverse on the patches
    [patch_make] builds; the patches made from [a] to [b] turn [a] into [b];
    the empty text is the empty patch list, which changes nothing. *)
Class DiffMatchPatchLaws `{DiffMatchPatch} := {
  patch_fromText_toText : forall a b,
    patch_fromText (patch_toText (patch_make a b)) = Ok (patch_make a b);
  patch_apply_make : forall a b,
    fst (patch_apply (patch_make a b) a) = b;
  patch_fromText_empty : patch_fromText [] = Ok [];
  patch_apply_nil : forall text, patch_apply [] text = (text, [])
}.

(** ** The file store

    A store maps the paths of the files that exist to their text.
    Directories are not modelled: opening a path for writing always
    succeeds. *)

Module Fs.

(** [open(path, "r").read()] *)
Definition read (fs : gmap str str) (path : str) : result str :=
  match fs !! path with
  | Some text => Ok text
  | None => Raise FileNotFoundError
  end.

(** [open(path, "w").write(text)] *)
Definition write (fs : gmap str str) (path text : str) : gmap str str :=
  <[path := text]> fs.


End Fs.

(** ** BioDesignMetadataLibrary.py *)

Module BioDesignMetadataLibrary.

(** The fields of a dataclass hold whatever value they were given (the
    annotations are not enforced), so they are JSON values here. *)
Record BioDesignOperation := {
  operationCode : json;
  operationDetails : json;
  change : json;
  timestamp : json;
  tool : json
}.

Record BioDesignMetadata := {
  id : json;
  parentMetadataId : json;
  designName : json;
  designChecksum : json;
  author : json;
  description : json;
  lastUpdated : json;
  changelog : json
}.

(** One element of the list [compute_revisions] returns:
    a dict with the keys [revision] and [design] followed by the fields
    of the operation. *)
Record Revision := {
  revision : Z;
  design : str;
  rev_operationCode : json;
  rev_operationDetails : json;
  rev_change : json;
  rev_timestamp : json;
  rev_tool : json
}.

Definition operation_fields : list str :=
  [lit "operationCode"; lit "operationDetails"; lit "change";
   lit "timestamp"; lit "tool"].

Definition metadata_fields : list str :=
  [lit "id"; lit "parentMetadataId"; lit "designName";
   lit "designChecksum"; lit "author"; lit "description";
   lit "lastUpdated"; lit "changelog"].

(** [asdict(op)] *)
Definition asdict_operation (op : BioDesignOperation) : json :=
  JObj [(lit "operationCode", operationCode op);
        (lit "operationDetails", operationDetails op);
        (lit "change", change op);
        (lit "timestamp", timestamp op);
        (lit "tool", tool op)].

(** [asdict(metadata)]. The operation appended by
    [update_metadata_with_operation] is kept in [changelog] as the dict
    [asdict] turns it into. *)
Definition asdict (m : BioDesignMetadata) : json :=
  JObj [(lit "id", id m);
        (lit "parentMetadataId", parentMetadataId m);
        (lit "designName", designName m);
        (lit "designChecksum", designChecksum m);
        (lit "author", author m);
        (lit "description", description m);
        (lit "lastUpdated", lastUpdated m);
        (lit "changelog", changelog m)].

(** The constructor [BioDesignOperation] applied to the unpacked dict
    [operation]: a [TypeError] unless [operation] is a dict with exactly
    the five field names as keys. *)
Definition new_operation (operation : json) : result BioDesignOperation :=
  match operation with
  | JObj d =>
      if Dict.keys_within operation_fields d then
        match Dict.get (lit "operationCode") d,
              Dict.get (lit "operationDetails") d,
              Dict.get (lit "change") d,
              Dict.get (lit "timestamp") d,
              Dict.get (lit "tool") d with
        | Some c, Some dt, Some ch, Some ts, Some tl =>
            Ok {| operationCode := c; operationDetails := dt; change := ch;
                  timestamp := ts; tool := tl |}
        | _, _, _, _, _ => Raise TypeError
        end
      else Raise TypeError
  | _ => Raise TypeError
  end.

(** The constructor [BioDesignMetadata] applied to the unpacked dict
    [metadata_json]: [changelog] defaults to the empty list, the other
    fields are required. *)
Definition new_metadata (metadata_json : json) : result BioDesignMetadata :=
  match metadata_json with
  | JObj d =>
      if Dict.keys_within metadata_fields d then
        match Dict.get (lit "id") d,
              Dict.get (lit "parentMetadataId") d,
              Dict.get (lit "designName") d,
              Dict.get (lit "designChecksum") d,
              Dict.get (lit "author") d,
              Dict.get (lit "description") d,
              Dict.get (lit "lastUpdated") d with
        | Some i, Some p, Some n, Some c, Some a, Some ds, Some u =>
            Ok {| id := i; parentMetadataId := p; designName := n;
                  designChecksum := c; author := a; description := ds;
                  lastUpdated := u;
                  changelog := default (JArr [])
                                 (Dict.get (lit "changelog") d) |}
        | _, _, _, _, _, _, _ => Raise TypeError
        end
      else Raise TypeError
  | _ => Raise TypeError
  end.


(** An optional string argument as the value stored in a field. *)
Definition of_optional (s : option str) : json :=
  match s with
  | Some s => JStr s
  | None => JNull
  end.

Section WithLibraries.
Context `{U : Unicode} `{J : JsonCodec} `{D : DiffMatchPatch}.

Definition calculate_checksum (input : str) : result str :=
  let input := str_lower input in
  data ← Utf8.encode input;
  Ok (Sha256.hexdigest data).

(** [uuid4] and [now] are the results of [uuid.uuid4()] and of the
    formatted [datetime.datetime.now()]. The file is written last, so a
    call that raises leaves the store as it was. *)
Definition create_metadata (fs : gmap str str) (uuid4 now : str)
           (parent_metadata_id : option str)
           (design_name author description design : str)
  : gmap str str * result BioDesignMetadata :=
  match
    (design_checksum ← calculate_checksum design;
     let metadata :=
       {| id := JStr uuid4;
          parentMetadataId := of_optional parent_metadata_id;
          designName := JStr design_name;
          designChecksum := JStr design_checksum;
          author := JStr author;
          description := JStr description;
          lastUpdated := JStr now;
          changelog := JArr [] |} in
     let json_string := json_dumps (asdict metadata) in
     Ok (json_string, metadata))
  with
  | Ok (json_string, metadata) =>
      (Fs.write fs (lit "library/metadata_" ++ design_name ++ lit ".json")
                json_string,
       Ok metadata)
  | Raise e => (fs, Raise e)
  end.


Definition compute_difference (original_string new_string : str) : str :=
  let patches := patch_make new_string original_string in
  patch_toText patches.

(** [dmp.patch_fromText(value)]: a value that is not a string has no
    [split] method. *)
Definition patch_fromText_value (v : json) : result (list patch) :=
  match v with
  | JStr text => patch_fromText text
  | _ => Raise AttributeError
  end.

(** The loop of [compute_revisions] over the reversed changelog. *)
Fixpoint revisions_loop (current_revision : Z) (last_design : str)
         (changelog : list json) : result (list Revision) :=
  match changelog with
  | [] => Ok []
  | operation :: rest =>
      op ← new_operation operation;
      let entry :=
        {| revision := current_revision;
           design := last_design;
           rev_operationCode := operationCode op;
           rev_operationDetails := operationDetails op;
           rev_change := change op;
           rev_timestamp := timestamp op;
           rev_tool := tool op |} in
      last_design ←
        (if truthy (change op) then
           patches ← patch_fromText_value (change op);
           Ok (fst (patch_apply patches last_design))
         else Ok last_design);
      revisions ← revisions_loop (current_revision - 1) last_design rest;
      Ok (entry :: revisions)
  end.

Definition compute_revisions (last_design : str) (changelog : list json)
  : result (list Revision) :=
  let current_revision := Z.of_nat (length changelog) in
  revisions_loop current_revision last_design (rev changelog).

(** [encryption_key] is [os.getenv('ENCRYPTION_KEY')]. *)
Definition decrypt_string (encryption_key : option str)
           (encrypted_base64_string : str) : result str :=
  match encryption_key with
  | None | Some [] => Raise ValueError
  | Some encryption_key =>
      key ← Utf8.encode encryption_key;
      encrypted_data_with_iv ← Base64.b64decode encrypted_base64_string;
      let iv := firstn 16 encrypted_data_with_iv in
      let encrypted_data := skipn 16 encrypted_data_with_iv in
      _ ← Cbc.cipher key iv;
      original_data ← Cbc.decrypt key iv encrypted_data;
      unpadded_data ← Pkcs7.unpad original_data;
      Utf8.decode unpadded_data
  end.

(** [iv] is the result of [os.urandom(16)]. *)
Definition encrypt_string (encryption_key : option str) (iv : bytes)
           (string_to_encrypt : str) : result str :=
  match encryption_key with
  | None | Some [] => Raise ValueError
  | Some encryption_key =>
      key ← Utf8.encode encryption_key;
      _ ← Cbc.cipher key iv;
      data ← Utf8.encode string_to_encrypt;
      let padded_data := Pkcs7.pad data in
      encrypted ← Cbc.encrypt key iv padded_data;
      Utf8.decode (Base64.b64encode (iv ++ encrypted))
  end.

End WithLibraries.

End BioDesignMetadataLibrary.

(** ** provider-backend: LatticeSynthProviderTool.py and provider-server.py *)

Module Provider.
Import BioDesignMetadataLibrary.

(** [s.endswith(suffix)] *)
Definition endswith (s suffix : str) : bool :=
  bool_decide (skipn (length s - length suffix) s = suffix)
  && (length suffix <=? length s)%nat.

(** The body of a JSON response and its HTTP status. *)
Record response := {
  error : bool;
  message : str;
  status : Z
}.

Section WithLibraries.
Context `{U : Unicode} `{J : JsonCodec} `{G : GenBank}.

(** The record an encrypted metadata file holds: the first four steps of
    [design_and_metadata_match]. *)
Definition stored_metadata (fs : gmap str str) (encryption_key : option str)
           (metadata_file : str) : result BioDesignMetadata :=
  metadata_str ← Fs.read fs metadata_file;
  decrypted_metadata ← decrypt_string encryption_key metadata_str;
  metadata_json ← json_loads decrypted_metadata;
  new_metadata metadata_json.

(** The design content of a file: the text of a [.pdb] file, the sequence
    of a GenBank file. *)
Definition design_content (fs : gmap str str) (design_file : str)
  : result str :=
  if endswith design_file (lit ".pdb") then Fs.read fs design_file
  else text ← Fs.read fs design_file; genbank_seq text.

(** The two responses of [place_order] after the check. *)
Definition mismatch_response : response :=
  {| error := true;
     message := lit "Design file and metadata file do not match. Please upload matching files.";
     status := 200 |}.

Definition success_response : response :=
  {| error := false;
     message := lit "Order placed successfully.";
     status := 200 |}.

Definition design_and_metadata_match (fs : gmap str str)
           (encryption_key : option str)
           (design_file metadata_file : str) : result bool :=
  metadata_str ← Fs.read fs metadata_file;
  decrypted_metadata ← decrypt_string encryption_key metadata_str;
  metadata_json ← json_loads decrypted_metadata;
  metadata ← new_metadata metadata_json;
  let design_checksum_in_metadata := designChecksum metadata in
  received_design_checksum ←
    (if endswith design_file (lit ".pdb") then
       design_str ← Fs.read fs design_file;
       calculate_checksum design_str
     else
       text ← Fs.read fs design_file;
       seq ← genbank_seq text;
       calculate_checksum seq);
  Ok (eq_str design_checksum_in_metadata received_design_checksum).

(** The [/order] endpoint; [design_file] and [metadata_file] are the
    values of [designFilePath] and [metadataFilePath] in the request
    body, [None] when absent. *)
Definition place_order (fs : gmap str str) (encryption_key : option str)
           (design_file metadata_file : option str) : result response :=
  match design_file, metadata_file with
  | Some ((_ :: _) as design_file), Some ((_ :: _) as metadata_file) =>
      let design_full_path := lit "exported/" ++ design_file in
      let metadata_full_path := lit "exported/" ++ metadata_file in
      matched ← design_and_metadata_match fs encryption_key
                  design_full_path metadata_full_path;
      if negb matched then
        Ok {| error := true;
              message := lit "Design file and metadata file do not match. Please upload matching files.";
              status := 200 |}
      else
        Ok {| error := false;
              message := lit "Order placed successfully.";
              status := 200 |}
  | _, _ =>
      Ok {| error := true;
            message := lit "Both design file and metadata file are required.";
            status := 400 |}
  end.

End WithLibraries.

End Provider.

(** ** biodesign-tool: CreateOperation.py and the dispatch of CREATE *)

Module CreateOperation.

(** The attributes of the operation object. *)
Record t := {
  file_name : str;
  sequence : str;
  source : str;
  metadata_parent_id : str
}.




End CreateOperation.

(** ** Histories

    The scenario of the reconstruction property: a record is created for a
    first content, then updated once per step, each step storing the
    difference between the previous content and its own, as
    [IOperation.execute] does. *)

Module History.
Import BioDesignMetadataLibrary.

(** The operation [update_metadata_with_operation] appends. *)
Definition appended (now operation_code : str) (operation_details : json)
           (change : str) : BioDesignOperation :=
  {| operationCode := JStr operation_code;
     operationDetails := operation_details;
     change := JStr change;
     timestamp := JStr now;
     tool := JStr (lit "BioDesign tool") |}.

(** One step: the new content, the operation and the time of the call. *)
Record step := {
  new_design : str;
  code : str;
  details : json;
  at_time : str
}.


Section WithLibraries.
Context `{U : Unicode} `{J : JsonCodec} `{D : DiffMatchPatch}.

(** The changelog entry of a step taken from the content [previous]. *)
Definition entry (previous : str) (s : step) : BioDesignOperation :=
  appended (at_time s) (code s) (details s)
           (compute_difference previous (new_design s)).

Fixpoint entries (previous : str) (steps : list step) : list json :=
  match steps with
  | [] => []
  | s :: rest =>
      asdict_operation (entry previous s) :: entries (new_design s) rest
  end.



(** An entry the loop of [compute_revisions] accepts: a dict with the five
    fields of an operation whose [change] is empty or parses as patches. *)
Definition well_formed (operation : json) : Prop :=
  exists op,
    new_operation operation = Ok op
    /\ (truthy (change op) = false
        \/ exists text patches,
            change op = JStr text /\ patch_fromText text = Ok patches).



End WithLibraries.

End History.

(** ** Reference implementations of the interfaces

    Small executable instances, used to run the definitions on concrete
    inputs. *)

Module Reference.
Import BioDesignMetadataLibrary History.

(** The ASCII part of the lowercase mapping. *)
Definition ascii_lower (s : str) : str :=
  map (fun c => if (65 <=? c) && (c <=? 90) then c + 32 else c) s.

(** Patches that replace the whole text: a patch holds the text it
    expects and the text it produces; its serialisation is the length of
    the first followed by both. *)
Definition whole_make (a b : str) : list (str * str) :=
  if bool_decide (a = b) then [] else [(a, b)].

Definition whole_toText (ps : list (str * str)) : str :=
  concat (map (fun p => Z.of_nat (length (fst p)) :: fst p ++ snd p) ps).

Definition whole_fromText (text : str) : result (list (str * str)) :=
  match text with
  | [] => Ok []
  | n :: rest =>
      if (0 <=? n) && (n <=? Z.of_nat (length rest)) then
        Ok [(firstn (Z.to_nat n) rest, skipn (Z.to_nat n) rest)]
      else Raise ValueError
  end.

Definition whole_apply (ps : list (str * str)) (text : str)
  : str * list bool :=
  fold_left
    (fun acc p =>
       if bool_decide (fst acc = fst p)
       then (snd p, snd acc ++ [true])
       else (fst acc, snd acc ++ [false]))
    ps (text, []).

(** A serialisation of documents: a tag, then the value; strings, lists
    and dicts are preceded by their length. *)
Fixpoint tag_dumps (j : json) : str :=
  match j with
  | JNull => [0]
  | JBool b => [1; if b then 1 else 0]
  | JNum n => [2; n]
  | JStr s => 3 :: Z.of_nat (length s) :: s
  | JArr items =>
      4 :: Z.of_nat (length items) :: concat (map tag_dumps items)
  | JObj fields =>
      5 :: Z.of_nat (length fields)
        :: concat (map (fun kv => Z.of_nat (length (fst kv))
                                    :: fst kv ++ tag_dumps (snd kv)) fields)
  end.

(** [k] values read one after the other by [parse1]. *)
Fixpoint parse_items (parse1 : str -> option (json * str)) (k : nat)
         (text : str) : option (list json * str) :=
  match k with
  | O => Some ([], text)
  | S k' =>
      match parse1 text with
      | Some (x, text) =>
          match parse_items parse1 k' text with
          | Some (xs, text) => Some (x :: xs, text)
          | None => None
          end
      | None => None
      end
  end.

(** [k] pairs of a key and a value. *)
Fixpoint parse_fields (parse1 : str -> option (json * str)) (k : nat)
         (text : str) : option (list (str * json) * str) :=
  match k with
  | O => Some ([], text)
  | S k' =>
      match text with
      | n :: text =>
          let key := firstn (Z.to_nat n) text in
          match parse1 (skipn (Z.to_nat n) text) with
          | Some (v, text) =>
              match parse_fields parse1 k' text with
              | Some (kvs, text) => Some ((key, v) :: kvs, text)
              | None => None
              end
          | None => None
          end
      | [] => None
      end
  end.

(** One value and the text left after it; [fuel] bounds the nesting. *)
Fixpoint parse (fuel : nat) (text : str) : option (json * str) :=
  match fuel with
  | O => None
  | S fuel' =>
      match text with
      | 0 :: rest => Some (JNull, rest)
      | 1 :: b :: rest => Some (JBool (b =? 1), rest)
      | 2 :: n :: rest => Some (JNum n, rest)
      | 3 :: n :: rest =>
          Some (JStr (firstn (Z.to_nat n) rest), skipn (Z.to_nat n) rest)
      | 4 :: n :: rest =>
          match parse_items (parse fuel') (Z.to_nat n) rest with
          | Some (items, rest) => Some (JArr items, rest)
          | None => None
          end
      | 5 :: n :: rest =>
          match parse_fields (parse fuel') (Z.to_nat n) rest with
          | Some (fields, rest) => Some (JObj fields, rest)
          | None => None
          end
      | _ => None
      end
  end.

Definition tag_loads (text : str) : result json :=
  match parse (length text) text with
  | Some (j, []) => Ok j
  | _ => Raise JSONDecodeError
  end.

(** Sample inputs. *)
Definition sample_key : str := lit "0123456789abcdef".
Definition sample_iv : bytes :=
  map byte_of_Z [1; 2; 3; 4; 5; 6; 7; 8; 9; 10; 11; 12; 13; 14; 15; 16].
Definition other_iv : bytes :=
  map byte_of_Z [16; 15; 14; 13; 12; 11; 10; 9; 8; 7; 6; 5; 4; 3; 2; 1].


#[export] Instance unicode : Unicode := {| str_lower := ascii_lower |}.

#[export] Instance diff_match_patch : DiffMatchPatch :=
  {| patch := str * str;
     patch_make := whole_make;
     patch_toText := whole_toText;
     patch_fromText := whole_fromText;
     patch_apply := whole_apply |}.

#[export] Instance json_codec : JsonCodec :=
  {| json_dumps := tag_dumps; json_loads := tag_loads |}.

(** A reader for files that hold the bare sequence. *)
#[export] Instance genbank : GenBank := {| genbank_seq := fun text => Ok text |}.

(** A record created for the design [atgc], then the operation APPEND
    producing [atgctga]. *)
Definition sample_created : gmap str str * result BioDesignMetadata :=
  create_metadata ∅ (lit "0f8fad5b-d9cb-469f-a165-70867728950e")
    (lit "11/03/2026, 10:00:00") None (lit "d1") (lit "John Smith")
    (lit "") (lit "atgc").


(** The scenario of the specification: APPEND of [tga], then DELETE of
    the first two characters. *)
Definition sample_steps : list step :=
  [ {| new_design := lit "atgctga"; code := lit "APPEND";
       details := JObj [(lit "insert_sequence", JStr (lit "tga"))];
       at_time := lit "11/03/2026, 10:00:01" |};
    {| new_design := lit "gctga"; code := lit "DELETE";
       details := JObj [(lit "delete_start_position", JNum 0);
                        (lit "delete_end_position", JNum 2)];
       at_time := lit "11/03/2026, 10:00:02" |} ].


(** A changelog whose only patch expects another text than the one it is
    applied to. *)
Definition stale_changelog : list json :=
  [asdict_operation
     (appended (lit "11/03/2026, 10:00:03") (lit "INSERT") JNull
               (compute_difference (lit "aaaa") (lit "cccc")))].

(** The export of the created record: its file encrypted, and two design
    files, one with the content of the record in upper case and one with
    another content. *)
Definition sample_token : str :=
  match snd sample_created with
  | Ok metadata =>
      match encrypt_string (Some sample_key) sample_iv
                           (json_dumps (asdict metadata)) with
      | Ok token => token
      | Raise _ => []
      end
  | Raise _ => []
  end.

Definition sample_exported : gmap str str :=
  {[ lit "exported/metadata_d1.txt" := sample_token;
     lit "exported/d1.pdb" := lit "ATGC";
     lit "exported/d2.gb" := lit "atgcc" ]}.



End Reference.

(** ** More of the interpreter: methods of [str], slices, dict lookups *)

Module PyStr.

(** [s.split(sep)] for a separator of one character. *)
Fixpoint split (sep : Z) (s : str) : list str :=
  match s with
  | [] => [[]]
  | c :: s' =>
      if c =? sep then [] :: split sep s'
      else match split sep s' with
           | word :: words => (c :: word) :: words
           | [] => [[c]]
           end
  end.

(** [sep.join(parts)] *)
Fixpoint join (sep : str) (parts : list str) : str :=
  match parts with
  | [] => []
  | [part] => part
  | part :: parts' => part ++ sep ++ join sep parts'
  end.

(** [s.startswith(prefix)] *)
Fixpoint startswith (s prefix : str) : bool :=
  match prefix, s with
  | [], _ => true
  | p :: prefix', c :: s' => (c =? p) && startswith s' prefix'
  | _ :: _, [] => false
  end.

(** [c.isspace()]: the characters [strip] removes. *)
Definition isspace (c : Z) : bool :=
  ((9 <=? c) && (c <=? 13)) || ((28 <=? c) && (c <=? 32))
  || (c =? 0x85) || (c =? 0xA0) || (c =? 0x1680)
  || ((0x2000 <=? c) && (c <=? 0x200A))
  || (c =? 0x2028) || (c =? 0x2029) || (c =? 0x202F) || (c =? 0x205F)
  || (c =? 0x3000).

Fixpoint lstrip (s : str) : str :=
  match s with
  | c :: s' => if isspace c then lstrip s' else s
  | [] => []
  end.

(** [s.strip()] *)
Definition strip (s : str) : str := rev (lstrip (rev (lstrip s))).

(** The characters [splitlines] breaks a text at. *)
Definition is_linebreak (c : Z) : bool :=
  ((10 <=? c) && (c <=? 13)) || ((28 <=? c) && (c <=? 30))
  || (c =? 0x85) || (c =? 0x2028) || (c =? 0x2029).

(** [s.splitlines()], with the line read so far in [line] (reversed): a
    carriage return followed by a line feed is one break, and a text that
    ends with a break has no empty last line. *)
Fixpoint splitlines_from (line : str) (s : str) : list str :=
  match s with
  | [] => match line with [] => [] | _ => [rev line] end
  | c :: s' =>
      if is_linebreak c then
        rev line
          :: match s' with
             | c' :: s'' =>
                 if (c =? 13) && (c' =? 10) then splitlines_from [] s''
                 else splitlines_from [] s'
             | [] => []
             end
      else splitlines_from (c :: line) s'
  end.

Definition splitlines (s : str) : list str := splitlines_from [] s.

(** An index of a slice, brought into the bounds of a sequence of length
    [len]: a negative index counts from the end. *)
Definition clamp (len i : Z) : Z :=
  if i <? 0 then Z.max (i + len) 0 else Z.min i len.

(** [s[start:stop]]; [None] stands for an omitted bound. *)
Definition slice {A} (s : list A) (start stop : option Z) : list A :=
  let len := Z.of_nat (length s) in
  let a := match start with Some i => clamp len i | None => 0 end in
  let b := match stop with Some i => clamp len i | None => len end in
  firstn (Z.to_nat (b - a)) (skipn (Z.to_nat a) s).

(** [d.get(key)] and [key in d] on a dict literal of strings. *)
Fixpoint get (d : list (str * str)) (key : str) : option str :=
  match d with
  | [] => None
  | (k, v) :: d' => if bool_decide (k = key) then Some v else get d' key
  end.

End PyStr.

(** ** biodesign-tool: main-biodesign.py *)

Module MainBiodesign.

(** One round of the loop over the arguments: [arg.split("=")] is
    unpacked into a name and a value, which fails unless it has exactly
    two parts. [None] stands for the exception. *)
Definition add_arg (cmd_args : option (gmap str str)) (arg : str)
  : option (gmap str str) :=
  cmd_args ← cmd_args;
  match PyStr.split 61 arg with
  | [arg_name; arg_value] => Some (<[arg_name := arg_value]> cmd_args)
  | _ => None
  end.

(** [parse_cmd_and_args]: the command name and the dict of its arguments,
    or [None] when an exception was caught. *)
Definition parse_cmd_and_args (cmd : str) : option (str * gmap str str) :=
  let name_and_args := PyStr.split 32 cmd in
  match name_and_args with
  | cmd_name :: args =>
      cmd_args ← fold_left add_arg args (Some ∅);
      Some (cmd_name, cmd_args)
  | [] => None
  end.

End MainBiodesign.

(** ** biodesign-tool: the sequence computed by the editing operations

    For each operation, the attributes set by [validate_and_set_args] and
    the first part of [apply_operation]: the checks and the new sequence
    handed to [save_new_record]. *)

Module InsertOperation.

Record t := { insert_position : Z; insert_sequence : str }.

Definition modified_seq (self : t) (original_seq : str) : result str :=
  if Z.of_nat (length original_seq) <=? insert_position self then
    Raise ValueError
  else
    Ok (PyStr.slice original_seq None (Some (insert_position self))
        ++ insert_sequence self
        ++ PyStr.slice original_seq (Some (insert_position self)) None).

End InsertOperation.

Module DeleteOperation.

Record t := { delete_start_position : Z; delete_end_position : Z }.

Definition modified_seq (self : t) (original_seq : str) : result str :=
  if Z.of_nat (length original_seq) <=? delete_start_position self then
    Raise ValueError
  else if Z.of_nat (length original_seq) <=? delete_end_position self then
    Raise ValueError
  else
    Ok (PyStr.slice original_seq None (Some (delete_start_position self))
        ++ PyStr.slice original_seq (Some (delete_end_position self)) None).

End DeleteOperation.

Module CodonOptimizeOperation.

(** The indices are kept as given: integers from a use case file, strings
    from the command line. *)
Record t := { organism : json; start_index : json; end_index : json }.

Definition codon_replacements : list (str * str) :=
  [(lit "atg", lit "gtg"); (lit "taa", lit "tag"); (lit "tag", lit "taa");
   (lit "tga", lit "taa"); (lit "gga", lit "ggg"); (lit "ttc", lit "ttt");
   (lit "aac", lit "aat")].

(** [range(0, n, 3)] *)
Definition range3 (n : nat) : list Z :=
  map (fun k => 3 * Z.of_nat k) (seq 0 ((n + 2) / 3)).

Definition replace_codons (sequence : str) : str :=
  let codons :=
    map (fun i => PyStr.slice sequence (Some i) (Some (i + 3)))
        (range3 (length sequence)) in
  let replaced_codons :=
    map (fun codon => default codon (PyStr.get codon_replacements codon))
        codons in
  PyStr.join [] replaced_codons.

(** A value used as a bound of a slice: an integer (a boolean counts as
    one), [None], or a [TypeError]. *)
Definition slice_bound (v : json) : result (option Z) :=
  match v with
  | JNum n => Ok (Some n)
  | JBool b => Ok (Some (if b then 1 else 0))
  | JNull => Ok None
  | _ => Raise TypeError
  end.

Definition modified_seq (self : t) (original_seq : str) : result str :=
  start ← slice_bound (start_index self);
  stop ← slice_bound (end_index self);
  let sequence_to_optimize := PyStr.slice original_seq start stop in
  let modified_sequence := replace_codons sequence_to_optimize in
  Ok (PyStr.slice original_seq None start ++ modified_sequence
      ++ PyStr.slice original_seq stop None).

End CodonOptimizeOperation.

Module TranslateProteinOperation.

Definition codon_table : list (str * str) :=
  [(lit "A", lit "GCT"); (lit "R", lit "CGT"); (lit "N", lit "AAT");
   (lit "D", lit "GAT"); (lit "C", lit "TGT"); (lit "Q", lit "CAA");
   (lit "E", lit "GAA"); (lit "G", lit "GGT"); (lit "H", lit "CAT");
   (lit "I", lit "ATT"); (lit "L", lit "CTT"); (lit "K", lit "AAA");
   (lit "M", lit "ATG"); (lit "F", lit "TTT"); (lit "P", lit "CCT");
   (lit "S", lit "TCT"); (lit "T", lit "ACT"); (lit "W", lit "TGG");
   (lit "Y", lit "TAT"); (lit "V", lit "GTT"); (lit "*", lit "TAA")].

Definition translate_protein (aa_sequence : str) : str :=
  let dna_sequence :=
    fold_left
      (fun dna_sequence aa =>
         match PyStr.get codon_table [aa] with
         | Some codon => dna_sequence ++ codon
         | None => dna_sequence
         end)
      aa_sequence [] in
  lit "ATG" ++ dna_sequence
    ++ default [] (PyStr.get codon_table (lit "*")).

End TranslateProteinOperation.

Module ExtractBackboneOperation.

Definition backbone_atoms : list str :=
  [lit "N"; lit "CA"; lit "C"; lit "O"].

(** The test of the loop: an [ATOM] line whose atom name, columns 13 to
    16 without the blanks around it, is a backbone atom. *)
Definition is_backbone_line (line : str) : bool :=
  PyStr.startswith line (lit "ATOM")
  && (let atom_name := PyStr.strip (PyStr.slice line (Some 12) (Some 16)) in
      bool_decide (atom_name ∈ backbone_atoms)).

Definition extract_backbone (pdb_content : str) : str :=
  let backbone_lines :=
    List.filter is_backbone_line (PyStr.splitlines pdb_content) in
  PyStr.join [10] backbone_lines.

End ExtractBackboneOperation.

(** ** Exceptions of the code around the library

    The provider and the tool index dicts they have read from a file, so
    besides the exceptions of the library a [KeyError] can be raised. *)

Module Exc.

Inductive exception :=
| Lib (e : exn)        (* one of the classes of [exn] *)
| KeyError.

Inductive outcome (A : Type) :=
| Return (a : A)
| Throw (e : exception).
Arguments Return {A} a.
Arguments Throw {A} e.

Definition bind {A B} (m : outcome A) (k : A -> outcome B) : outcome B :=
  match m with
  | Return a => k a
  | Throw e => Throw e
  end.

(** A call of the library, or of a library it uses. *)
Definition lift {A} (r : result A) : outcome A :=
  match r with
  | Ok a => Return a
  | Raise e => Throw (Lib e)
  end.

(** [obj[key]] for a string [key]: only a dict can be indexed by a
    string. *)
Definition getitem (obj : json) (key : str) : outcome json :=
  match obj with
  | JObj d =>
      match Dict.get key d with
      | Some v => Return v
      | None => Throw KeyError
      end
  | _ => Throw (Lib TypeError)
  end.

End Exc.
Export Exc.

#[global] Instance outcome_ret : MRet outcome := fun _ a => Return a.
#[global] Instance outcome_bind : MBind outcome := fun _ _ k m => Exc.bind m k.

(** [Bio.SeqIO] with the format ["genbank"], and the record it reads:
    [SeqIO_read text] is [SeqIO.read(handle, "genbank")] on a handle of a
    file with that text, [SeqIO_write record] the text
    [SeqIO.write(record, handle, "genbank")] writes, [record_lower] is
    [record.lower()] and [record_seq] is [str(record.seq)]. *)
Class BioPython := {
  SeqRecord : Type;
  SeqIO_read : str -> result SeqRecord;
  SeqIO_write : SeqRecord -> result str;
  record_lower : SeqRecord -> SeqRecord;
  record_seq : SeqRecord -> str
}.

(** The reader of sequences this gives. *)
Definition genbank_of `{B : BioPython} : GenBank :=
  {| genbank_seq := fun text => record ← SeqIO_read text;
                                Ok (record_seq record) |}.

(** ** provider-backend: the revisions of a design *)

Module ProviderRevisions.
Import BioDesignMetadataLibrary Provider.

(** The dict [compute_revisions] returns, which [/revisions] sends. *)
Record history := {
  id : json;
  parentMetadataId : json;
  designName : json;
  author : json;
  description : json;
  lastUpdated : json;
  revisions : list Revision
}.

Section WithLibraries.
Context `{U : Unicode} `{J : JsonCodec} `{D : DiffMatchPatch}
        `{B : BioPython}.

Definition get_string_from_record (record : SeqRecord) : result str :=
  SeqIO_write record.

(** [BioDesignMetadataLibrary.compute_revisions] on the value of the
    key [changelog], whatever it is: the empty string has length 0 and no
    element; a character of a string is no mapping to unpack; a dict
    cannot be sliced (a [TypeError]; a [KeyError] from Python 3.12 on,
    where a slice can be hashed); the other values have no length. *)
Definition library_compute_revisions (last_design : str) (changelog : json)
  : outcome (list Revision) :=
  match changelog with
  | JArr items => lift (compute_revisions last_design items)
  | JStr [] => Return []
  | _ => Throw (Lib TypeError)
  end.

Definition compute_revisions (fs : gmap str str)
           (encryption_key : option str) (design_file metadata_file : str)
  : outcome history :=
  metadata_str ← lift (Fs.read fs metadata_file);
  decrypted_metadata ← lift (decrypt_string encryption_key metadata_str);
  metadata_json ← lift (json_loads decrypted_metadata);
  last_design ←
    (if endswith design_file (lit ".pdb") then
       lift (Fs.read fs design_file)
     else
       text ← lift (Fs.read fs design_file);
       record ← lift (SeqIO_read text);
       lift (get_string_from_record record));
  changelog ← getitem metadata_json (lit "changelog");
  revisions ← library_compute_revisions last_design changelog;
  id ← getitem metadata_json (lit "id");
  parentMetadataId ← getitem metadata_json (lit "parentMetadataId");
  designName ← getitem metadata_json (lit "designName");
  author ← getitem metadata_json (lit "author");
  description ← getitem metadata_json (lit "description");
  lastUpdated ← getitem metadata_json (lit "lastUpdated");
  Return {| id := id;
            parentMetadataId := parentMetadataId;
            designName := designName;
            author := author;
            description := description;
            lastUpdated := lastUpdated;
            revisions := revisions |}.

(** The [/revisions] endpoint: an error response, or the history with
    status 200. *)
Definition get_revisions (fs : gmap str str) (encryption_key : option str)
           (design_file metadata_file : option str)
  : outcome (response + history) :=
  match design_file, metadata_file with
  | Some ((_ :: _) as design_file), Some ((_ :: _) as metadata_file) =>
      let design_full_path := lit "exported/" ++ design_file in
      let metadata_full_path := lit "exported/" ++ metadata_file in
      matched ← lift (design_and_metadata_match (G := genbank_of)
                        fs encryption_key
                        design_full_path metadata_full_path);
      if negb matched then
        Return (inl {| error := true;
                       message := lit "Design file and metadata file do not match. Please upload matching files.";
                       status := 200 |})
      else
        history ← compute_revisions fs encryption_key
                    design_full_path metadata_full_path;
        Return (inr history)
  | _, _ =>
      Return (inl {| error := true;
                     message := lit "Both design file and metadata file are required.";
                     status := 400 |})
  end.

End WithLibraries.

End ProviderRevisions.

(** ** More sample inputs *)

Module Samples.
Import BioDesignMetadataLibrary History Reference.

(** Records that are the bare sequence, as the reader of [Reference]
    has them. *)
#[global] Instance biopython : BioPython :=
  {| SeqRecord := str;
     SeqIO_read := fun text => Ok text;
     SeqIO_write := fun record => Ok record;
     record_lower := ascii_lower;
     record_seq := fun record => record |}.

(** The token of a text under the sample key and IV. *)
Definition token_of (text : str) : str :=
  match encrypt_string (Some sample_key) sample_iv text with
  | Ok token => token
  | Raise _ => []
  end.




(** A record written without the key [changelog], for the design
    [atgc]. *)
Definition bare_record : list (str * json) :=
  [(lit "id", JStr (lit "0f8fad5b-d9cb-469f-a165-70867728950e"));
   (lit "parentMetadataId", JNull);
   (lit "designName", JStr (lit "d1"));
   (lit "designChecksum",
    match calculate_checksum (lit "atgc") with
    | Ok c => JStr c
    | Raise _ => JNull
    end);
   (lit "author", JStr (lit "John Smith"));
   (lit "description", JStr (lit ""));
   (lit "lastUpdated", JStr (lit "11/03/2026, 10:00:00"))].

Definition bare_exported : gmap str str :=
  {[ lit "exported/metadata_d1.txt" := token_of (json_dumps (JObj bare_record));
     lit "exported/d1.pdb" := lit "ATGC" ]}.

End Samples.

(** * Properties *)

(** ** Bytes and integers *)

Section ByteFacts.

Lemma Z_of_byte_range (b : byte) : 0 <= Z_of_byte b < 256.
Proof.
  unfold Z_of_byte. pose proof (Byte.to_N_bounded b). lia.
Qed.

Lemma byte_of_Z_of_byte (b : byte) : byte_of_Z (Z_of_byte b) = b.
Proof.
  unfold byte_of_Z. pose proof (Z_of_byte_range b) as Hr.
  rewrite Z.mod_small by lia. unfold Z_of_byte.
  rewrite N2Z.id, Byte.of_to_N. reflexivity.
Qed.

Lemma Z_of_byte_of_Z (z : Z) : 0 <= z < 256 -> Z_of_byte (byte_of_Z z) = z.
Proof.
  intros Hz. unfold byte_of_Z, Z_of_byte. rewrite Z.mod_small by lia.
  destruct (Byte.of_N (Z.to_N z)) as [b|] eqn:E.
  - apply Byte.to_of_N in E. rewrite E. lia.
  - apply Byte.of_N_None_iff in E. lia.
Qed.

Lemma byte_of_Z_inj (x y : Z) :
  0 <= x < 256 -> 0 <= y < 256 -> byte_of_Z x = byte_of_Z y -> x = y.
Proof.
  intros Hx Hy E. rewrite <- (Z_of_byte_of_Z x), <- (Z_of_byte_of_Z y) by lia.
  now rewrite E.
Qed.

Lemma lxor_byte_range (x y : Z) :
  0 <= x < 256 -> 0 <= y < 256 -> 0 <= Z.lxor x y < 256.
Proof.
  intros Hx Hy. split; [apply Z.lxor_nonneg; lia|].
  destruct (Z.eq_dec (Z.lxor x y) 0) as [->|Hne]; [lia|].
  assert (Hpos : 0 < Z.lxor x y)
    by (pose proof (proj2 (Z.lxor_nonneg x y) ltac:(lia)); lia).
  change 256 with (2 ^ 8). apply Z.log2_lt_pow2; [assumption|].
  pose proof (Z.log2_lxor x y ltac:(lia) ltac:(lia)) as Hl.
  assert (Hbx : Z.log2 x < 8).
  { destruct (Z.eq_dec x 0) as [->|]; [cbn; lia|].
    apply Z.log2_lt_pow2; [lia|]. change (2 ^ 8) with 256. lia. }
  assert (Hby : Z.log2 y < 8).
  { destruct (Z.eq_dec y 0) as [->|]; [cbn; lia|].
    apply Z.log2_lt_pow2; [lia|]. change (2 ^ 8) with 256. lia. }
  lia.
Qed.

Lemma xor_byte_cancel (x y : byte) : xor_byte (xor_byte x y) y = x.
Proof.
  unfold xor_byte.
  pose proof (Z_of_byte_range x). pose proof (Z_of_byte_range y).
  rewrite Z_of_byte_of_Z by (apply lxor_byte_range; lia).
  rewrite Z.lxor_assoc, Z.lxor_nilpotent, Z.lxor_0_r.
  apply byte_of_Z_of_byte.
Qed.

Lemma xor_bytes_length (a b : bytes) :
  length a = length b -> length (xor_bytes a b) = length a.
Proof.
  revert b. induction a as [|x a IH]; intros [|y b] Hl; cbn in *;
    try discriminate; [reflexivity|]. f_equal. apply IH. lia.
Qed.

Lemma xor_bytes_cancel (a b : bytes) :
  length a = length b -> xor_bytes (xor_bytes a b) b = a.
Proof.
  revert b. induction a as [|x a IH]; intros [|y b] Hl; cbn in *;
    try discriminate; [reflexivity|].
  rewrite xor_byte_cancel, IH by lia. reflexivity.
Qed.

End ByteFacts.

(** ** UTF-8 *)

Section Utf8Facts.
Import Utf8.

Lemma is_cont_cont (x : Z) : is_cont (cont x) = true.
Proof.
  unfold is_cont, cont. pose proof (Z.mod_pos_bound x 64 ltac:(lia)).
  rewrite Z_of_byte_of_Z by lia.
  apply andb_true_intro; split; [apply Z.leb_le | apply Z.ltb_lt]; lia.
Qed.

Lemma payload_cont (x : Z) : payload (cont x) = x mod 64.
Proof.
  unfold payload, cont. pose proof (Z.mod_pos_bound x 64 ltac:(lia)).
  rewrite Z_of_byte_of_Z by lia. lia.
Qed.

Ltac ltb_false := apply Z.ltb_ge; Z.div_mod_to_equations; lia.
Ltac ltb_true := apply Z.ltb_lt; Z.div_mod_to_equations; lia.
Ltac leb_true := apply Z.leb_le; Z.div_mod_to_equations; lia.

Lemma decode_encode_char (c : Z) (bs rest : bytes) :
  encode_char c = Ok bs ->
  decode (bs ++ rest) = (s ← decode rest; Ok (c :: s)).
Proof.
  unfold encode_char, is_surrogate.
  destruct (Z.ltb_spec c 0); [discriminate|].
  destruct (Z.ltb_spec c 0x80).
  { intros [= <-]. cbn [app decode].
    rewrite Z_of_byte_of_Z by lia.
    replace (c <? 128) with true by (symmetry; ltb_true). reflexivity. }
  destruct (Z.ltb_spec c 0x800).
  { intros [= <-]. cbn [app decode].
    rewrite Z_of_byte_of_Z by (Z.div_mod_to_equations; lia).
    rewrite is_cont_cont, payload_cont.
    replace (192 + c / 64 <? 128) with false by (symmetry; ltb_false).
    replace (192 + c / 64 <? 192) with false by (symmetry; ltb_false).
    replace (192 + c / 64 <? 224) with true by (symmetry; ltb_true).
    replace ((192 + c / 64 - 192) * 64 + c mod 64) with c
      by (Z.div_mod_to_equations; lia).
    replace (128 <=? c) with true by (symmetry; leb_true). reflexivity. }
  destruct (Z.ltb_spec c 0x10000).
  { destruct (Z.leb_spec 0xD800 c); destruct (Z.leb_spec c 0xDFFF);
      cbn [andb]; try discriminate; intros [= <-]; cbn [app decode];
      rewrite Z_of_byte_of_Z by (Z.div_mod_to_equations; lia);
      rewrite !is_cont_cont, !payload_cont;
      replace (224 + c / 4096 <? 128) with false by (symmetry; ltb_false);
      replace (224 + c / 4096 <? 192) with false by (symmetry; ltb_false);
      replace (224 + c / 4096 <? 224) with false by (symmetry; ltb_false);
      replace (224 + c / 4096 <? 240) with true by (symmetry; ltb_true);
      replace ((224 + c / 4096 - 224) * 4096 + (c / 64) mod 64 * 64
               + c mod 64) with c by (Z.div_mod_to_equations; lia);
      replace (2048 <=? c) with true by (symmetry; leb_true);
      cbn [andb]; unfold is_surrogate;
      replace ((55296 <=? c) && (c <=? 57343)) with false
        by (symmetry; apply andb_false_iff; rewrite !Z.leb_gt; lia);
      reflexivity. }
  destruct (Z.ltb_spec c 0x110000); [|discriminate].
  intros [= <-]. cbn [app decode].
  rewrite Z_of_byte_of_Z by (Z.div_mod_to_equations; lia).
  rewrite !is_cont_cont, !payload_cont.
  replace (240 + c / 262144 <? 128) with false by (symmetry; ltb_false).
  replace (240 + c / 262144 <? 192) with false by (symmetry; ltb_false).
  replace (240 + c / 262144 <? 224) with false by (symmetry; ltb_false).
  replace (240 + c / 262144 <? 240) with false by (symmetry; ltb_false).
  replace (240 + c / 262144 <? 248) with true by (symmetry; ltb_true).
  replace ((240 + c / 262144 - 240) * 262144 + (c / 4096) mod 64 * 4096
           + (c / 64) mod 64 * 64 + c mod 64) with c
    by (Z.div_mod_to_equations; lia).
  replace (65536 <=? c) with true by (symmetry; leb_true).
  replace (c <? 1114112) with true by (symmetry; ltb_true).
  reflexivity.
Qed.

(** Decoding inverts encoding. *)
Lemma utf8_decode_encode (s : str) (bs : bytes) :
  encode s = Ok bs -> decode bs = Ok s.
Proof.
  revert bs. induction s as [|c s IH]; intros bs.
  - intros [= <-]. reflexivity.
  - cbn [encode]. destruct (encode_char c) as [b|] eqn:Ec; [|discriminate].
    destruct (encode s) as [r|] eqn:Es; [|discriminate].
    intros [= <-]. rewrite (decode_encode_char _ _ _ Ec), (IH r eq_refl).
    reflexivity.
Qed.

End Utf8Facts.

(** ** Base64 *)

Section Base64Facts.
Import Base64.

Lemma range_forallb (P : Z -> bool) (n : nat) :
  forallb P (map Z.of_nat (seq 0 n)) = true ->
  forall i, 0 <= i < Z.of_nat n -> P i = true.
Proof.
  rewrite forallb_forall. intros HP i Hi. apply HP.
  apply in_map_iff. exists (Z.to_nat i). split; [lia|].
  apply in_seq. lia.
Qed.

Lemma char_ok_all (i : Z) : 0 <= i < 64 -> char_ok i = true.
Proof. apply (range_forallb char_ok 64). vm_compute. reflexivity. Qed.

Lemma index_char (i : Z) : 0 <= i < 64 -> index (char i) = Some i.
Proof.
  intros Hi. pose proof (char_ok_all i Hi) as Hok. unfold char_ok in Hok.
  destruct (index (char i)) as [j|]; [|discriminate].
  apply andb_prop in Hok as [Hok _]. apply andb_prop in Hok as [Hj _].
  apply Z.eqb_eq in Hj. now subst.
Qed.

Lemma char_not_pad (i : Z) :
  0 <= i < 64 -> (Z_of_byte (char i) =? 61) = false.
Proof.
  intros Hi. pose proof (char_ok_all i Hi) as Hok. unfold char_ok in Hok.
  destruct (index (char i)); [|discriminate].
  apply andb_prop in Hok as [Hok _]. apply andb_prop in Hok as [_ Hp].
  now apply negb_true_iff in Hp.
Qed.

Lemma char_ascii (i : Z) : 0 <= i < 64 -> Z_of_byte (char i) < 128.
Proof.
  intros Hi. pose proof (char_ok_all i Hi) as Hok. unfold char_ok in Hok.
  destruct (index (char i)); [|discriminate].
  apply andb_prop in Hok as [_ Ha]. now apply Z.ltb_lt in Ha.
Qed.

Lemma a2b_step0 l p out i rest :
  0 <= i < 64 ->
  a2b_base64 0 l p out (char i :: rest) = a2b_base64 1 i 0 out rest.
Proof.
  intros Hi. cbn [a2b_base64]. rewrite char_not_pad, index_char by lia.
  reflexivity.
Qed.

Lemma a2b_step1 l p out i rest :
  0 <= i < 64 ->
  a2b_base64 1 l p out (char i :: rest)
  = a2b_base64 2 (i mod 16) 0 (out ++ [byte_of_Z (l * 4 + i / 16)]) rest.
Proof.
  intros Hi. cbn [a2b_base64]. rewrite char_not_pad, index_char by lia.
  reflexivity.
Qed.

Lemma a2b_step2 l p out i rest :
  0 <= i < 64 ->
  a2b_base64 2 l p out (char i :: rest)
  = a2b_base64 3 (i mod 4) 0 (out ++ [byte_of_Z (l * 16 + i / 4)]) rest.
Proof.
  intros Hi. cbn [a2b_base64]. rewrite char_not_pad, index_char by lia.
  reflexivity.
Qed.

Lemma a2b_step3 l p out i rest :
  0 <= i < 64 ->
  a2b_base64 3 l p out (char i :: rest)
  = a2b_base64 0 0 0 (out ++ [byte_of_Z (l * 64 + i)]) rest.
Proof.
  intros Hi. cbn [a2b_base64]. rewrite char_not_pad, index_char by lia.
  reflexivity.
Qed.

(** Induction over a list three elements at a time. *)
Lemma list_ind3 {A} (P : list A -> Prop) :
  P [] -> (forall a, P [a]) -> (forall a b, P [a; b]) ->
  (forall a b c l, P l -> P (a :: b :: c :: l)) ->
  forall l, P l.
Proof.
  intros H0 H1 H2 H3.
  fix IH 1. intros [|a [|b [|c l]]];
    [apply H0 | apply H1 | apply H2 | apply H3, IH].
Qed.

Ltac arith := Z.div_mod_to_equations; lia.

Lemma a2b_b2a (data : bytes) :
  forall out, a2b_base64 0 0 0 out (b2a_base64 data) = Ok (out ++ data).
Proof.
  induction data as [|a|a b|a b c data IH] using list_ind3; intros out.
  - cbn. now rewrite app_nil_r.
  - pose proof (Z_of_byte_range a).
    cbn [b2a_base64].
    rewrite a2b_step0, a2b_step1 by arith.
    replace (Z_of_byte a / 4 * 4 + Z_of_byte a mod 4 * 16 / 16)
      with (Z_of_byte a) by arith.
    rewrite byte_of_Z_of_byte. reflexivity.
  - pose proof (Z_of_byte_range a). pose proof (Z_of_byte_range b).
    cbn [b2a_base64].
    rewrite a2b_step0, a2b_step1, a2b_step2 by arith.
    replace (Z_of_byte a / 4 * 4
             + (Z_of_byte a mod 4 * 16 + Z_of_byte b / 16) / 16)
      with (Z_of_byte a) by arith.
    replace ((Z_of_byte a mod 4 * 16 + Z_of_byte b / 16) mod 16 * 16
             + Z_of_byte b mod 16 * 4 / 4)
      with (Z_of_byte b) by arith.
    rewrite !byte_of_Z_of_byte, <- app_assoc. reflexivity.
  - pose proof (Z_of_byte_range a). pose proof (Z_of_byte_range b).
    pose proof (Z_of_byte_range c).
    cbn [b2a_base64].
    rewrite a2b_step0, a2b_step1, a2b_step2, a2b_step3 by arith.
    replace (Z_of_byte a / 4 * 4
             + (Z_of_byte a mod 4 * 16 + Z_of_byte b / 16) / 16)
      with (Z_of_byte a) by arith.
    replace ((Z_of_byte a mod 4 * 16 + Z_of_byte b / 16) mod 16 * 16
             + (Z_of_byte b mod 16 * 4 + Z_of_byte c / 64) / 4)
      with (Z_of_byte b) by arith.
    replace ((Z_of_byte b mod 16 * 4 + Z_of_byte c / 64) mod 4 * 64
             + Z_of_byte c mod 64)
      with (Z_of_byte c) by arith.
    rewrite !byte_of_Z_of_byte, IH, <- !app_assoc. reflexivity.
Qed.

(** Every character of an encoding is ASCII. *)
Lemma b2a_ascii (data : bytes) :
  Forall (fun b => Z_of_byte b < 128) (b2a_base64 data).
Proof.
  induction data as [|a|a b|a b c data IH] using list_ind3;
    cbn [b2a_base64];
    repeat match goal with
           | |- Forall _ [] => constructor
           | |- Forall _ (pad_char :: _) =>
               constructor; [vm_compute; reflexivity|]
           | |- Forall _ (char _ :: _) =>
               constructor;
               [apply char_ascii;
                repeat match goal with
                       | |- context [Z_of_byte ?x] =>
                           lazymatch goal with
                           | _ : 0 <= Z_of_byte x < 256 |- _ => fail
                           | _ => pose proof (Z_of_byte_range x)
                           end
                       end; arith|]
           end; assumption.
Qed.

Lemma decode_ascii (bs : bytes) :
  Forall (fun b => Z_of_byte b < 128) bs ->
  Utf8.decode bs = Ok (map Z_of_byte bs).
Proof.
  induction 1 as [|b bs Hb _ IH]; [reflexivity|].
  cbn [Utf8.decode map]. apply Z.ltb_lt in Hb. rewrite Hb, IH. reflexivity.
Qed.

Lemma encode_ascii_decoded (bs : bytes) :
  Forall (fun b => Z_of_byte b < 128) bs ->
  Utf8.encode_ascii (map Z_of_byte bs) = Ok bs.
Proof.
  induction 1 as [|b bs Hb _ IH]; [reflexivity|].
  cbn [Utf8.encode_ascii map]. pose proof (Z_of_byte_range b).
  replace (0 <=? Z_of_byte b) with true by (symmetry; apply Z.leb_le; lia).
  apply Z.ltb_lt in Hb. rewrite Hb, IH, byte_of_Z_of_byte. reflexivity.
Qed.

(** [b64decode(b64encode(data).decode()) == data] *)
Lemma b64decode_b64encode (data : bytes) :
  exists token, Utf8.decode (b64encode data) = Ok token
                /\ b64decode token = Ok data.
Proof.
  exists (map Z_of_byte (b64encode data)). unfold b64encode, b64decode.
  pose proof (b2a_ascii data) as Ha. split; [now apply decode_ascii|].
  rewrite encode_ascii_decoded by assumption. apply (a2b_b2a data []).
Qed.

End Base64Facts.

(** ** PKCS7 padding *)

Section Pkcs7Facts.
Import Pkcs7.

Lemma pad_length (data : bytes) :
  (length (pad data) mod block_size = 0)%nat /\ (0 < length (pad data))%nat.
Proof.
  unfold pad, block_size. rewrite length_app, repeat_length.
  pose proof (Nat.mod_upper_bound (length data) 16 ltac:(lia)) as Hm.
  pose proof (Nat.div_mod_eq (length data) 16) as Hd.
  split; [|lia].
  replace (length data + (16 - length data mod 16))%nat
    with ((length data / 16 + 1) * 16)%nat by lia.
  apply Nat.Div0.mod_mul.
Qed.

(** Removing the padding gives the data back. *)
Lemma unpad_pad (data : bytes) : unpad (pad data) = Ok data.
Proof.
  pose proof (pad_length data) as [Hmod Hpos].
  unfold unpad. rewrite Hmod.
  replace (length (pad data) =? 0)%nat with false
    by (symmetry; apply Nat.eqb_neq; lia).
  cbn [orb negb Nat.eqb].
  unfold pad in *. unfold block_size in *.
  pose proof (Nat.mod_upper_bound (length data) 16 ltac:(lia)) as Hm.
  set (n := (16 - length data mod 16)%nat) in *.
  assert (Hn : (1 <= n <= 16)%nat) by (subst n; lia).
  assert (Hlast : last (data ++ repeat (byte_of_Z (Z.of_nat n)) n)
                       Init.Byte.x00 = byte_of_Z (Z.of_nat n)).
  { generalize (byte_of_Z (Z.of_nat n)) as x. intros x.
    destruct n as [|k]; [lia|].
    cbn [repeat]. rewrite repeat_cons, app_assoc. apply last_last. }
  rewrite Hlast, Z_of_byte_of_Z by lia. rewrite Nat2Z.id.
  rewrite length_app, repeat_length.
  replace (length data + n - n)%nat with (length data) by lia.
  rewrite skipn_app, skipn_all, Nat.sub_diag. cbn [skipn app].
  rewrite firstn_app, Nat.sub_diag, firstn_all. cbn [firstn].
  rewrite app_nil_r.
  replace (1 <=? Z.of_nat n) with true by (symmetry; apply Z.leb_le; lia).
  replace (Z.of_nat n <=? Z.of_nat 16) with true
    by (symmetry; apply Z.leb_le; lia).
  cbn [andb].
  replace (forallb _ _) with true; [reflexivity|].
  symmetry. apply forallb_forall. intros b Hb.
  apply repeat_spec in Hb. subst b.
  rewrite Z_of_byte_of_Z by lia. apply Z.eqb_refl.
Qed.

End Pkcs7Facts.

(** ** The AES block function *)

Section AesFacts.
Import Aes.

Lemma Z_of_byte_inj (a b : byte) : Z_of_byte a = Z_of_byte b -> a = b.
Proof.
  intros E. rewrite <- (byte_of_Z_of_byte a), <- (byte_of_Z_of_byte b).
  now rewrite E.
Qed.

Lemma Z_of_byte_xor (a b : byte) :
  Z_of_byte (xor a b) = Z.lxor (Z_of_byte a) (Z_of_byte b).
Proof.
  unfold xor, xor_byte. apply Z_of_byte_of_Z.
  apply lxor_byte_range; apply Z_of_byte_range.
Qed.

Lemma xor_zero_r (a : byte) : xor a zero = a.
Proof.
  apply Z_of_byte_inj. rewrite Z_of_byte_xor.
  change (Z_of_byte zero) with 0. apply Z.lxor_0_r.
Qed.

Lemma xor_zero_l (a : byte) : xor zero a = a.
Proof.
  apply Z_of_byte_inj. rewrite Z_of_byte_xor.
  change (Z_of_byte zero) with 0. apply Z.lxor_0_l.
Qed.

(** Two sums added term by term. *)
Lemma xor_shuffle (a b c d : byte) :
  xor (xor a b) (xor c d) = xor (xor a c) (xor b d).
Proof.
  apply Z_of_byte_inj. rewrite !Z_of_byte_xor.
  rewrite !Z.lxor_assoc. f_equal.
  rewrite <- !Z.lxor_assoc. f_equal. apply Z.lxor_comm.
Qed.

(** A property checked on every byte holds of every byte. *)
Lemma all_bytes_forallb (P : byte -> bool) :
  forallb P all_bytes = true -> forall b, P b = true.
Proof.
  rewrite forallb_forall. intros HP b. apply HP. unfold all_bytes.
  apply in_map_iff. exists (Z_of_byte b). split; [apply byte_of_Z_of_byte|].
  apply in_map_iff. exists (Z.to_nat (Z_of_byte b)).
  pose proof (Z_of_byte_range b). split; [lia|]. apply in_seq. lia.
Qed.

(** A property checked on every pair of bytes holds of every pair. *)
Lemma all_pairs_forallb (P : byte -> byte -> bool) :
  forallb (fun a => forallb (P a) all_bytes) all_bytes = true ->
  forall a b, P a b = true.
Proof.
  intros Hc a b.
  pose proof (all_bytes_forallb _ Hc a) as Ha. cbv beta in Ha.
  exact (all_bytes_forallb _ Ha b).
Qed.

Lemma xtime_linear (a b : byte) :
  xtime (xor a b) = xor (xtime a) (xtime b).
Proof.
  apply Byte.byte_dec_bl.
  apply (all_pairs_forallb
           (fun a b => Byte.eqb (xtime (xor a b)) (xor (xtime a) (xtime b)))).
  vm_compute. reflexivity.
Qed.

Lemma gmul_aux_linear (n : nat) :
  forall a a' b acc acc',
    gmul_aux n (xor a a') b (xor acc acc')
    = xor (gmul_aux n a b acc) (gmul_aux n a' b acc').
Proof.
  induction n as [|n IH]; intros a a' b acc acc'; [reflexivity|].
  cbn [gmul_aux]. destruct (b =? 0); [reflexivity|].
  rewrite xtime_linear. destruct (Z.odd b).
  - rewrite xor_shuffle. apply IH.
  - apply IH.
Qed.

Lemma gmul_linear (a a' : byte) (c : Z) :
  gmul (xor a a') c = xor (gmul a c) (gmul a' c).
Proof.
  unfold gmul. rewrite <- gmul_aux_linear. now rewrite xor_zero_l.
Qed.

Lemma dot_linear c0 c1 c2 c3 a b c d a' b' c' d' :
  dot c0 c1 c2 c3 (xor a a') (xor b b') (xor c c') (xor d d')
  = xor (dot c0 c1 c2 c3 a b c d) (dot c0 c1 c2 c3 a' b' c' d').
Proof.
  unfold dot. rewrite !gmul_linear.
  rewrite (xor_shuffle (gmul a c0)), (xor_shuffle (gmul c c2)).
  apply xor_shuffle.
Qed.

Lemma unmix_linear n0 n1 n2 n3 a b c d a' b' c' d' :
  unmix n0 n1 n2 n3 (xor a a') (xor b b') (xor c c') (xor d d')
  = xor (unmix n0 n1 n2 n3 a b c d) (unmix n0 n1 n2 n3 a' b' c' d').
Proof. rewrite !dot_linear. reflexivity. Qed.

(** [unmix] is the sum of its values on the four bytes taken alone. *)
Lemma unmix_split n0 n1 n2 n3 a b c d :
  unmix n0 n1 n2 n3 a b c d
  = xor (xor (unmix n0 n1 n2 n3 a zero zero zero)
             (unmix n0 n1 n2 n3 zero b zero zero))
        (xor (unmix n0 n1 n2 n3 zero zero c zero)
             (unmix n0 n1 n2 n3 zero zero zero d)).
Proof.
  rewrite <- !unmix_linear.
  now rewrite !xor_zero_r, !xor_zero_l, ?xor_zero_r.
Qed.

(** The inverse matrix times the matrix is the identity: each entry of the
    product, checked on every byte. *)
Ltac check_all_bytes x :=
  apply Byte.byte_dec_bl; revert x; apply all_bytes_forallb;
  vm_compute; reflexivity.

Lemma unmix_00 (x : byte) :
  unmix 14 11 13 9 x zero zero zero = x.
Proof. check_all_bytes x. Qed.

Lemma unmix_01 (x : byte) :
  unmix 14 11 13 9 zero x zero zero = zero.
Proof. check_all_bytes x. Qed.

Lemma unmix_02 (x : byte) :
  unmix 14 11 13 9 zero zero x zero = zero.
Proof. check_all_bytes x. Qed.

Lemma unmix_03 (x : byte) :
  unmix 14 11 13 9 zero zero zero x = zero.
Proof. check_all_bytes x. Qed.

Lemma unmix_10 (x : byte) :
  unmix 9 14 11 13 x zero zero zero = zero.
Proof. check_all_bytes x. Qed.

Lemma unmix_11 (x : byte) :
  unmix 9 14 11 13 zero x zero zero = x.
Proof. check_all_bytes x. Qed.

Lemma unmix_12 (x : byte) :
  unmix 9 14 11 13 zero zero x zero = zero.
Proof. check_all_bytes x. Qed.

Lemma unmix_13 (x : byte) :
  unmix 9 14 11 13 zero zero zero x = zero.
Proof. check_all_bytes x. Qed.

Lemma unmix_20 (x : byte) :
  unmix 13 9 14 11 x zero zero zero = zero.
Proof. check_all_bytes x. Qed.

Lemma unmix_21 (x : byte) :
  unmix 13 9 14 11 zero x zero zero = zero.
Proof. check_all_bytes x. Qed.

Lemma unmix_22 (x : byte) :
  unmix 13 9 14 11 zero zero x zero = x.
Proof. check_all_bytes x. Qed.

Lemma unmix_23 (x : byte) :
  unmix 13 9 14 11 zero zero zero x = zero.
Proof. check_all_bytes x. Qed.

Lemma unmix_30 (x : byte) :
  unmix 11 13 9 14 x zero zero zero = zero.
Proof. check_all_bytes x. Qed.

Lemma unmix_31 (x : byte) :
  unmix 11 13 9 14 zero x zero zero = zero.
Proof. check_all_bytes x. Qed.

Lemma unmix_32 (x : byte) :
  unmix 11 13 9 14 zero zero x zero = zero.
Proof. check_all_bytes x. Qed.

Lemma unmix_33 (x : byte) :
  unmix 11 13 9 14 zero zero zero x = x.
Proof. check_all_bytes x. Qed.

Lemma inv_mix_column_mix_column (a b c d : byte) :
  match mix_column a b c d with
  | [m0; m1; m2; m3] => inv_mix_column m0 m1 m2 m3
  | _ => []
  end = [a; b; c; d].
Proof.
  cbn [mix_column]. unfold inv_mix_column.
  rewrite !(unmix_split _ _ _ _ a b c d).
  rewrite unmix_00, unmix_01, unmix_02, unmix_03, unmix_10, unmix_11, unmix_12, unmix_13,
    unmix_20, unmix_21, unmix_22, unmix_23, unmix_30, unmix_31, unmix_32, unmix_33.
  now rewrite ?xor_zero_r, ?xor_zero_l, ?xor_zero_r.
Qed.

Lemma inv_mix_columns_mix_columns (st : bytes) :
  inv_mix_columns (mix_columns st) = st.
Proof.
  unfold inv_mix_columns, mix_columns.
  destruct st as [|s0 [|s1 [|s2 [|s3 [|s4 [|s5 [|s6 [|s7 [|s8 [|s9 [|sa
    [|sb [|sc [|sd [|se [|sf [|sg st]]]]]]]]]]]]]]]]]; try reflexivity.
  pose proof (inv_mix_column_mix_column s0 s1 s2 s3) as H0.
  pose proof (inv_mix_column_mix_column s4 s5 s6 s7) as H1.
  pose proof (inv_mix_column_mix_column s8 s9 sa sb) as H2.
  pose proof (inv_mix_column_mix_column sc sd se sf) as H3.
  cbn [mix_column] in *. cbn [columns mix_column app].
  now rewrite H0, H1, H2, H3.
Qed.

Lemma inv_shift_rows_shift_rows (st : bytes) :
  inv_shift_rows (shift_rows st) = st.
Proof.
  destruct st as [|s0 [|s1 [|s2 [|s3 [|s4 [|s5 [|s6 [|s7 [|s8 [|s9 [|sa
    [|sb [|sc [|sd [|se [|sf [|sg st]]]]]]]]]]]]]]]]]; reflexivity.
Qed.

Lemma inv_sbox_sbox (b : byte) : inv_sbox (sbox b) = b.
Proof.
  apply Byte.byte_dec_bl. revert b.
  apply (all_bytes_forallb (fun b => Byte.eqb (inv_sbox (sbox b)) b)).
  vm_compute. reflexivity.
Qed.

Lemma inv_sub_bytes_sub_bytes (st : bytes) :
  inv_sub_bytes (sub_bytes st) = st.
Proof.
  unfold inv_sub_bytes, sub_bytes. rewrite map_map.
  rewrite <- (map_id st) at 2. apply map_ext, inv_sbox_sbox.
Qed.

Lemma add_round_key_twice (w : bytes) (r : nat) (st : bytes) :
  add_round_key w r (add_round_key w r st) = st.
Proof.
  unfold add_round_key. apply list_eq. intros i.
  rewrite !list_lookup_imap. destruct (st !! i) as [b|]; [|reflexivity].
  cbn. f_equal. apply xor_byte_cancel.
Qed.

Lemma inv_round_round (w : bytes) (r : nat) (st : bytes) :
  inv_round w r (round w r st) = st.
Proof.
  unfold inv_round, round.
  now rewrite add_round_key_twice, inv_mix_columns_mix_columns,
    inv_shift_rows_shift_rows, inv_sub_bytes_sub_bytes.
Qed.

Lemma inv_rounds_rounds (w : bytes) (n : nat) :
  forall r st, inv_rounds w n r (rounds w n r st) = st.
Proof.
  induction n as [|n IH]; intros r st; [reflexivity|].
  cbn [rounds inv_rounds]. now rewrite IH, inv_round_round.
Qed.

(** The inverse cipher inverts the cipher, under any key schedule. *)
Lemma inv_cipher_cipher (w : bytes) (nr : nat) (block : bytes) :
  inv_cipher w nr (cipher w nr block) = block.
Proof.
  unfold inv_cipher, cipher.
  now rewrite add_round_key_twice, inv_shift_rows_shift_rows,
    inv_sub_bytes_sub_bytes, inv_rounds_rounds, add_round_key_twice.
Qed.

Lemma shift_rows_length (st : bytes) : length (shift_rows st) = length st.
Proof.
  destruct st as [|s0 [|s1 [|s2 [|s3 [|s4 [|s5 [|s6 [|s7 [|s8 [|s9 [|sa
    [|sb [|sc [|sd [|se [|sf [|sg st]]]]]]]]]]]]]]]]]; reflexivity.
Qed.

Lemma mix_columns_length (st : bytes) : length (mix_columns st) = length st.
Proof.
  destruct st as [|s0 [|s1 [|s2 [|s3 [|s4 [|s5 [|s6 [|s7 [|s8 [|s9 [|sa
    [|sb [|sc [|sd [|se [|sf [|sg st]]]]]]]]]]]]]]]]]; reflexivity.
Qed.

Lemma round_length (w : bytes) (r : nat) (st : bytes) :
  length (round w r st) = length st.
Proof.
  unfold round, add_round_key, sub_bytes.
  now rewrite length_imap, mix_columns_length, shift_rows_length, length_map.
Qed.

Lemma rounds_length (w : bytes) (n : nat) :
  forall r st, length (rounds w n r st) = length st.
Proof.
  induction n as [|n IH]; intros r st; [reflexivity|].
  cbn [rounds]. now rewrite IH, round_length.
Qed.

Lemma cipher_length (w : bytes) (nr : nat) (block : bytes) :
  length (cipher w nr block) = length block.
Proof.
  unfold cipher, add_round_key, sub_bytes.
  now rewrite length_imap, shift_rows_length, length_map, rounds_length,
    length_imap.
Qed.

(** Decryption of a block inverts its encryption, under any key. *)
Lemma decrypt_block_encrypt_block (key block : bytes) :
  decrypt_block key (encrypt_block key block) = block.
Proof. apply inv_cipher_cipher. Qed.

End AesFacts.

(** ** CBC mode *)

Section CbcFacts.
Import Cbc.

Lemma decrypt_encrypt_blocks (w : bytes) (nr : nat) (blocks : list bytes) :
  Forall (fun b => length b = 16%nat) blocks ->
  forall prev, length prev = 16%nat ->
    decrypt_blocks w nr prev (encrypt_blocks w nr prev blocks) = blocks.
Proof.
  induction 1 as [|p blocks Hp _ IH]; intros prev Hprev; [reflexivity|].
  cbn [encrypt_blocks decrypt_blocks].
  assert (Hx : length (xor_bytes p prev) = 16%nat)
    by (rewrite xor_bytes_length; congruence).
  rewrite inv_cipher_cipher.
  rewrite xor_bytes_cancel by congruence.
  rewrite IH; [reflexivity|].
  rewrite cipher_length. exact Hx.
Qed.

Lemma encrypt_blocks_length (w : bytes) (nr : nat) (blocks : list bytes) :
  Forall (fun b => length b = 16%nat) blocks ->
  forall prev, length prev = 16%nat ->
    Forall (fun b => length b = 16%nat) (encrypt_blocks w nr prev blocks).
Proof.
  induction 1 as [|p blocks Hp _ IH]; intros prev Hprev;
    cbn [encrypt_blocks]; constructor.
  - rewrite cipher_length, xor_bytes_length; congruence.
  - apply IH. rewrite cipher_length, xor_bytes_length; congruence.
Qed.

Lemma chunks_blocks (n : nat) (data : bytes) :
  length data = (n * 16)%nat ->
  Forall (fun b => length b = 16%nat) (chunks n data)
  /\ concat (chunks n data) = data.
Proof.
  revert data. induction n as [|n IH]; intros data Hl.
  - destruct data; [split; [constructor|reflexivity]|discriminate].
  - cbn [chunks]. unfold block_len.
    destruct (IH (skipn 16 data)) as [Hf Hc].
    { rewrite length_skipn. lia. }
    split.
    + constructor; [|assumption]. rewrite length_firstn. lia.
    + cbn [concat]. rewrite Hc. apply firstn_skipn.
Qed.

Lemma chunks_concat (blocks : list bytes) :
  Forall (fun b => length b = 16%nat) blocks ->
  chunks (length blocks) (concat blocks) = blocks
  /\ length (concat blocks) = (length blocks * 16)%nat.
Proof.
  induction 1 as [|b blocks Hb _ [IH1 IH2]]; [split; reflexivity|].
  cbn [length chunks concat]. unfold block_len. split.
  - rewrite firstn_app, skipn_app, Hb, Nat.sub_diag.
    rewrite <- Hb at 1 2. rewrite firstn_all, skipn_all. cbn [firstn skipn app].
    rewrite app_nil_r. change (skipn 0 (concat blocks)) with (concat blocks).
    now rewrite IH1.
  - rewrite length_app. lia.
Qed.

(** Decryption under the same key and IV inverts encryption. *)
Lemma decrypt_encrypt (key iv data ct : bytes) :
  length iv = 16%nat ->
  encrypt key iv data = Ok ct ->
  decrypt key iv ct = Ok data.
Proof.
  intros Hiv. unfold encrypt, decrypt, block_len.
  destruct (length data mod 16 =? 0)%nat eqn:Hm; [|discriminate].
  cbn [negb]. intros Hct.
  set (w := Aes.key_expansion key) in *. set (nr := Aes.rounds_of key) in *.
  assert (ct = concat (encrypt_blocks w nr iv
                         (chunks (length data / 16) data))) as ->
    by congruence.
  clear Hct. apply Nat.eqb_eq in Hm.
  assert (Hl : length data = (length data / 16 * 16)%nat).
  { pose proof (Nat.div_mod_eq (length data) 16). lia. }
  destruct (chunks_blocks _ _ Hl) as [Hf Hc].
  pose proof (encrypt_blocks_length w nr _ Hf iv Hiv) as He.
  destruct (chunks_concat _ He) as [Hch Hlen].
  rewrite Hlen, Nat.Div0.mod_mul, Nat.div_mul by lia. cbn [Nat.eqb negb].
  rewrite Hch, decrypt_encrypt_blocks, Hc by assumption. reflexivity.
Qed.

End CbcFacts.

(** ** The reference implementations satisfy the laws *)

Section ReferenceFacts.
Import Reference.

Lemma ascii_lower_idempotent (s : str) :
  ascii_lower (ascii_lower s) = ascii_lower s.
Proof.
  unfold ascii_lower. rewrite map_map. apply map_ext. intros c.
  destruct (Z.leb_spec 65 c), (Z.leb_spec c 90); cbn [andb];
    repeat match goal with
           | |- context [?a <=? ?b] => destruct (Z.leb_spec a b)
           end; cbn [andb]; lia.
Qed.

Lemma whole_fromText_toText (a b : str) :
  whole_fromText (whole_toText (whole_make a b)) = Ok (whole_make a b).
Proof.
  unfold whole_make. case_bool_decide; [reflexivity|].
  cbn [whole_toText map concat fst snd]. rewrite app_nil_r.
  cbn [whole_fromText]. rewrite length_app.
  replace (0 <=? Z.of_nat (length a)) with true
    by (symmetry; apply Z.leb_le; lia).
  replace (Z.of_nat (length a) <=? Z.of_nat (length a + length b)) with true
    by (symmetry; apply Z.leb_le; lia).
  cbn [andb]. rewrite Nat2Z.id, take_app_length, drop_app_length.
  reflexivity.
Qed.

Lemma whole_apply_make (a b : str) :
  fst (whole_apply (whole_make a b) a) = b.
Proof.
  unfold whole_make. case_bool_decide as Hab; [exact Hab|].
  cbn. case_bool_decide; [reflexivity|contradiction].
Qed.

(** Induction over documents, with the hypothesis for every element of
    a list and every value of a dict. *)
Lemma json_ind' (P : json -> Prop) :
  P JNull -> (forall b, P (JBool b)) -> (forall n, P (JNum n)) ->
  (forall s, P (JStr s)) ->
  (forall items, Forall P items -> P (JArr items)) ->
  (forall fields, Forall (fun kv => P (snd kv)) fields -> P (JObj fields)) ->
  forall j, P j.
Proof.
  intros HN HB HZ HS HA HO. fix IH 1. intros [|b|n|s|items|fields].
  - exact HN.
  - apply HB.
  - apply HZ.
  - apply HS.
  - apply HA. induction items as [|x items IHl]; constructor;
      [apply IH | exact IHl].
  - apply HO. induction fields as [|[k v] fields IHl]; constructor;
      [apply IH | exact IHl].
Qed.

Lemma parse_items_dumps (fuel : nat) (items : list json) (rest : str) :
  Forall (fun j => forall fuel rest,
              (length (tag_dumps j) <= fuel)%nat ->
              parse fuel (tag_dumps j ++ rest) = Some (j, rest)) items ->
  (length (concat (map tag_dumps items)) <= fuel)%nat ->
  parse_items (parse fuel) (length items)
              (concat (map tag_dumps items) ++ rest)
  = Some (items, rest).
Proof.
  induction 1 as [|x items Hx _ IH]; intros Hl; [reflexivity|].
  cbn [map concat length parse_items] in *. rewrite length_app in Hl.
  rewrite <- app_assoc, Hx by lia. now rewrite IH by lia.
Qed.

Lemma parse_fields_dumps (fuel : nat) (fields : list (str * json))
      (rest : str) :
  Forall (fun kv => forall fuel rest,
              (length (tag_dumps (snd kv)) <= fuel)%nat ->
              parse fuel (tag_dumps (snd kv) ++ rest) = Some (snd kv, rest))
         fields ->
  (length (concat (map (fun kv => Z.of_nat (length (fst kv))
                                    :: fst kv ++ tag_dumps (snd kv))
                       fields)) <= fuel)%nat ->
  parse_fields (parse fuel) (length fields)
    (concat (map (fun kv => Z.of_nat (length (fst kv))
                              :: fst kv ++ tag_dumps (snd kv)) fields)
     ++ rest)
  = Some (fields, rest).
Proof.
  induction 1 as [|[k v] fields Hv _ IH]; intros Hl; [reflexivity|].
  cbn [map concat length parse_fields fst snd app] in *.
  rewrite !length_app in Hl.
  rewrite Nat2Z.id, <- !app_assoc, take_app_length, drop_app_length.
  rewrite Hv by lia. now rewrite IH by lia.
Qed.

Lemma parse_dumps (j : json) :
  forall fuel rest,
    (length (tag_dumps j) <= fuel)%nat ->
    parse fuel (tag_dumps j ++ rest) = Some (j, rest).
Proof.
  induction j as [|b|n|s|items IH|fields IH] using json_ind';
    intros [|fuel] rest Hl; cbn [tag_dumps length] in Hl; try lia;
    cbn [tag_dumps app parse].
  - reflexivity.
  - now destruct b.
  - reflexivity.
  - now rewrite Nat2Z.id, take_app_length, drop_app_length.
  - now rewrite Nat2Z.id, parse_items_dumps by (assumption || lia).
  - now rewrite Nat2Z.id, parse_fields_dumps by (assumption || lia).
Qed.

Lemma tag_loads_dumps (j : json) : tag_loads (tag_dumps j) = Ok j.
Proof.
  unfold tag_loads.
  rewrite <- (app_nil_r (tag_dumps j)) at 2.
  now rewrite parse_dumps by lia.
Qed.

#[export] Instance unicode_laws : UnicodeLaws :=
  {| str_lower_idempotent := ascii_lower_idempotent |}.

#[export] Instance diff_match_patch_laws : DiffMatchPatchLaws :=
  {| patch_fromText_toText := whole_fromText_toText;
     patch_apply_make := whole_apply_make;
     patch_fromText_empty := eq_refl;
     patch_apply_nil := fun _ => eq_refl |}.

#[export] Instance json_codec_laws : JsonCodecLaws :=
  {| json_loads_dumps := tag_loads_dumps |}.

End ReferenceFacts.

(** ** The encrypted export/import boundary *)

Section Crypto.
Import BioDesignMetadataLibrary.

Lemma valid_key_nonempty (encryption_key : str) (key : bytes) :
  Utf8.encode encryption_key = Ok key -> Cbc.valid_key key = true ->
  encryption_key <> [].
Proof. intros He Hv ->. cbn in He. injection He as <-. discriminate. Qed.

Lemma cipher_ok (key iv : bytes) :
  Cbc.cipher key iv = Ok tt
  <-> Cbc.valid_key key = true /\ length iv = 16%nat.
Proof.
  unfold Cbc.cipher, Cbc.block_len.
  destruct (Cbc.valid_key key); cbn [negb].
  - destruct (Nat.eqb_spec (length iv) 16); cbn [negb].
    + split; [intros _; split; [reflexivity|assumption] | reflexivity].
    + split; [discriminate | intros [_ ?]; contradiction].
  - split; [discriminate | intros [? _]; discriminate].
Qed.

Lemma cipher_inv (key iv : bytes) (u : unit) :
  Cbc.cipher key iv = Ok u ->
  Cbc.valid_key key = true /\ length iv = 16%nat.
Proof. destruct u. apply cipher_ok. Qed.

Lemma split_iv (iv ct : bytes) :
  length iv = 16%nat ->
  firstn 16 (iv ++ ct) = iv /\ skipn 16 (iv ++ ct) = ct.
Proof.
  intros <-. split; [apply take_app_length | apply drop_app_length].
Qed.

(** C5. Crypto round-trip: under a key whose UTF-8 encoding has a valid
    AES length and a 16-byte IV, [encrypt_string] of a string [S] returns
    the base64 text of the IV followed by the CBC ciphertext of the
    PKCS7-padded UTF-8 encoding of [S], and [decrypt_string] of that token
    returns [S]. The only strings [encrypt_string] does not accept are
    those without a UTF-8 encoding, on which it raises. *)
Theorem crypto_round_trip (encryption_key S : str) (key iv : bytes) :
  Utf8.encode encryption_key = Ok key ->
  Cbc.valid_key key = true ->
  length iv = 16%nat ->
  match Utf8.encode S with
  | Ok data =>
      exists ct token,
        Cbc.encrypt key iv (Pkcs7.pad data) = Ok ct
        /\ Utf8.decode (Base64.b64encode (iv ++ ct)) = Ok token
        /\ encrypt_string (Some encryption_key) iv S = Ok token
        /\ Base64.b64decode token = Ok (iv ++ ct)
        /\ decrypt_string (Some encryption_key) token = Ok S
  | Raise e => encrypt_string (Some encryption_key) iv S = Raise e
  end.
Proof.
  intros Hkey Hvalid Hiv.
  pose proof (valid_key_nonempty _ _ Hkey Hvalid) as Hne.
  assert (Hc : Cbc.cipher key iv = Ok tt) by (apply cipher_ok; auto).
  destruct (Utf8.encode S) as [data|e] eqn:Hdata.
  2: { unfold encrypt_string.
       destruct encryption_key as [|k0 ks]; [congruence|].
       rewrite Hkey. cbn [mbind result_bind Py.bind].
       rewrite Hc, Hdata. reflexivity. }
  destruct (pad_length data) as [Hmod _].
  assert (Henc : exists ct, Cbc.encrypt key iv (Pkcs7.pad data) = Ok ct).
  { unfold Cbc.encrypt, Cbc.block_len. unfold Pkcs7.block_size in Hmod.
    rewrite Hmod. cbn. eauto. }
  destruct Henc as [ct Hct].
  destruct (b64decode_b64encode (iv ++ ct)) as (token & Htok & Hdec).
  exists ct, token. repeat split; try assumption.
  - unfold encrypt_string. destruct encryption_key as [|k0 ks]; [congruence|].
    rewrite Hkey. cbn [mbind result_bind Py.bind].
    rewrite Hc, Hdata. cbn [mbind result_bind Py.bind].
    rewrite Hct. cbn [mbind result_bind Py.bind]. exact Htok.
  - unfold decrypt_string. destruct encryption_key as [|k0 ks]; [congruence|].
    rewrite Hkey. cbn [mbind result_bind Py.bind].
    rewrite Hdec. cbn [mbind result_bind Py.bind].
    destruct (split_iv iv ct Hiv) as [-> ->]. rewrite Hc.
    cbn [mbind result_bind Py.bind].
    rewrite (decrypt_encrypt key iv _ ct Hiv Hct).
    cbn [mbind result_bind Py.bind].
    rewrite unpad_pad. cbn [mbind result_bind Py.bind].
    now apply utf8_decode_encode.
Qed.

Lemma encrypt_string_inv (encryption_key : option str)
      (iv : bytes) (S token : str) :
  encrypt_string encryption_key iv S = Ok token ->
  length iv = 16%nat
  /\ exists ct, token = map Z_of_byte (Base64.b64encode (iv ++ ct))
                /\ Base64.b64decode token = Ok (iv ++ ct).
Proof.
  unfold encrypt_string.
  destruct encryption_key as [[|k0 ks]|]; try discriminate.
  destruct (Utf8.encode (k0 :: ks)) as [key|]; [|discriminate].
  cbn [mbind result_bind Py.bind].
  destruct (Cbc.cipher key iv) as [u|] eqn:Hc; [|discriminate].
  apply cipher_inv in Hc as [_ Hiv].
  cbn [mbind result_bind Py.bind].
  destruct (Utf8.encode S) as [data|]; [|discriminate].
  cbn [mbind result_bind Py.bind].
  destruct (Cbc.encrypt key iv (Pkcs7.pad data)) as [ct|]; [|discriminate].
  cbn [mbind result_bind Py.bind]. intros Htok.
  split; [assumption|]. exists ct.
  pose proof (b2a_ascii (iv ++ ct)) as Ha.
  unfold Base64.b64encode in *. rewrite (decode_ascii _ Ha) in Htok.
  injection Htok as <-. split; [reflexivity|].
  unfold Base64.b64decode. rewrite encode_ascii_decoded by assumption.
  apply (a2b_b2a (iv ++ ct) []).
Qed.

(** C6. Token non-repetition: two successful calls of [encrypt_string] on
    the same plaintext under the same key with distinct IVs return
    distinct tokens; each token decodes to bytes whose first 16 are the
    IV of its call. *)
Theorem token_non_repetition (encryption_key : option str)
        (S : str) (iv1 iv2 : bytes) (t1 t2 : str) :
  encrypt_string encryption_key iv1 S = Ok t1 ->
  encrypt_string encryption_key iv2 S = Ok t2 ->
  iv1 <> iv2 ->
  t1 <> t2
  /\ exists d1 d2,
       Base64.b64decode t1 = Ok d1 /\ firstn 16 d1 = iv1
       /\ Base64.b64decode t2 = Ok d2 /\ firstn 16 d2 = iv2.
Proof.
  intros H1 H2 Hne.
  apply encrypt_string_inv in H1 as (Hl1 & ct1 & _ & Hd1).
  apply encrypt_string_inv in H2 as (Hl2 & ct2 & _ & Hd2).
  destruct (split_iv iv1 ct1 Hl1) as [Hf1 _].
  destruct (split_iv iv2 ct2 Hl2) as [Hf2 _].
  split.
  - intros ->. rewrite Hd1 in Hd2. injection Hd2 as Heq.
    apply Hne. rewrite <- Hf1, <- Hf2. now rewrite Heq.
  - exists (iv1 ++ ct1), (iv2 ++ ct2). auto.
Qed.

End Crypto.

(** ** Checksums and the metadata record *)

Section Checksum.
Import BioDesignMetadataLibrary.
Context `{Unicode}.


End Checksum.

Section Store.
Import BioDesignMetadataLibrary History.
Context `{Unicode} `{JsonCodec}.








End Store.

(** ** Patches and revision reconstruction *)

Section Changelog.
Import BioDesignMetadataLibrary History.
Context `{U : Unicode} `{J : JsonCodec} `{D : DiffMatchPatch}.



Lemma revisions_loop_total (changelog : list json) :
  Forall well_formed changelog ->
  forall current_revision last_design,
  exists revisions,
    revisions_loop current_revision last_design changelog = Ok revisions
    /\ length revisions = length changelog.
Proof.
  induction 1 as [|operation rest (op & Hop & Hch) _ IH];
    intros current_revision last_design.
  - exists []. split; reflexivity.
  - cbn [revisions_loop]. rewrite Hop. cbn [mbind result_bind Py.bind].
    destruct Hch as [Hfalse | (text & patches & Htext & Hparse)].
    + rewrite Hfalse. cbn [mbind result_bind Py.bind].
      destruct (IH (current_revision - 1) last_design) as (revs & -> & Hlen).
      eexists. split; [reflexivity|]. cbn [length]. now rewrite Hlen.
    + destruct (truthy (change op)).
      * rewrite Htext. cbn [patch_fromText_value]. rewrite Hparse.
        cbn [mbind result_bind Py.bind].
        destruct (IH (current_revision - 1)
                     (fst (patch_apply patches last_design)))
          as (revs & -> & Hlen).
        eexists. split; [reflexivity|]. cbn [length]. now rewrite Hlen.
      * cbn [mbind result_bind Py.bind].
        destruct (IH (current_revision - 1) last_design)
          as (revs & -> & Hlen).
        eexists. split; [reflexivity|]. cbn [length]. now rewrite Hlen.
Qed.

Lemma revisions_loop_flags (flags : list patch -> str -> list bool)
      (changelog : list json) :
  forall current_revision last_design,
    revisions_loop (D := with_flags flags) current_revision last_design
                   changelog
    = revisions_loop current_revision last_design changelog.
Proof.
  induction changelog as [|operation rest IH];
    intros current_revision last_design; [reflexivity|].
  cbn [revisions_loop]. destruct (new_operation operation) as [op|];
    [|reflexivity].
  cbn [mbind result_bind Py.bind].
  destruct (truthy (change op)); cbn [mbind result_bind Py.bind];
    [|now rewrite IH].
  destruct (change op) as [| | |text| |]; try reflexivity.
Qed.

(** C10. Silent patch-application failure: on a changelog whose entries
    are operation dicts with an empty or parseable [change],
    [compute_revisions] returns normally with one revision per entry,
    whatever [patch_apply] does with each patch; and its result is the
    same whatever success flags [patch_apply] reports. *)
Theorem revisions_ignore_patch_failures
        (last_design : str) (changelog : list json) :
  Forall well_formed changelog ->
  (exists revisions,
      compute_revisions last_design changelog = Ok revisions
      /\ length revisions = length changelog)
  /\ forall flags,
      compute_revisions (D := with_flags flags) last_design changelog
      = compute_revisions last_design changelog.
Proof.
  intros Hwf. split.
  - unfold compute_revisions.
    destruct (revisions_loop_total (rev changelog))
      with (current_revision := Z.of_nat (length changelog))
           (last_design := last_design) as (revs & Hr & Hl).
    { apply Forall_forall. intros x Hx. apply in_rev in Hx.
      revert x Hx. now apply Forall_forall. }
    exists revs. split; [assumption|]. now rewrite Hl, length_rev.
  - intros flags. apply revisions_loop_flags.
Qed.










End Changelog.

(** ** The provider-side check *)

Section ProviderFacts.
Import BioDesignMetadataLibrary Provider.
Context `{U : Unicode} `{J : JsonCodec} `{G : GenBank}.

Lemma eq_str_true (v : json) (s : str) : eq_str v s = true <-> v = JStr s.
Proof.
  destruct v; cbn [eq_str]; try (split; [discriminate|congruence]).
  rewrite bool_decide_eq_true. split; congruence.
Qed.

Lemma match_result fs encryption_key design_file metadata_file m d c :
  stored_metadata fs encryption_key metadata_file = Ok m ->
  design_content fs design_file = Ok d ->
  calculate_checksum d = Ok c ->
  design_and_metadata_match fs encryption_key design_file metadata_file
  = Ok (eq_str (designChecksum m) c).
Proof.
  unfold stored_metadata, design_content, design_and_metadata_match.
  destruct (Fs.read fs metadata_file) as [token|]; [|discriminate].
  cbn [mbind result_bind Py.bind].
  destruct (decrypt_string encryption_key token) as [text|]; [|discriminate].
  cbn [mbind result_bind Py.bind].
  destruct (json_loads text) as [j|]; [|discriminate].
  cbn [mbind result_bind Py.bind]. intros -> Hd Hc.
  cbn [mbind result_bind Py.bind].
  destruct (endswith design_file (lit ".pdb")).
  - rewrite Hd. cbn [mbind result_bind Py.bind]. now rewrite Hc.
  - destruct (Fs.read fs design_file) as [content|]; [|discriminate].
    cbn [mbind result_bind Py.bind] in *. rewrite Hd.
    cbn [mbind result_bind Py.bind]. now rewrite Hc.
Qed.

(** C4. Mismatch rejection: when the metadata file decrypts to a record
    and the design file has content with a checksum,
    [design_and_metadata_match] returns [True] exactly when the record's
    [designChecksum] is that checksum; when they differ it returns [False]
    without raising, and [place_order] answers with [error] set and the
    mismatch message, status 200. *)
Theorem mismatch_rejection fs encryption_key design_file metadata_file m d c :
  stored_metadata fs encryption_key metadata_file = Ok m ->
  design_content fs design_file = Ok d ->
  calculate_checksum d = Ok c ->
  (design_and_metadata_match fs encryption_key design_file metadata_file
   = Ok true <-> designChecksum m = JStr c)
  /\ (designChecksum m <> JStr c ->
      design_and_metadata_match fs encryption_key design_file metadata_file
      = Ok false)
  /\ forall design_name metadata_name,
      design_name <> [] -> metadata_name <> [] ->
      design_file = lit "exported/" ++ design_name ->
      metadata_file = lit "exported/" ++ metadata_name ->
      place_order fs encryption_key (Some design_name) (Some metadata_name)
      = Ok (if eq_str (designChecksum m) c then success_response
            else mismatch_response).
Proof.
  intros Hm Hd Hc.
  pose proof (match_result _ _ _ _ _ _ _ Hm Hd Hc) as Hr.
  repeat split.
  - rewrite Hr. intros [= He]. now apply eq_str_true.
  - intros He. rewrite Hr. f_equal. now apply eq_str_true.
  - intros Hne. rewrite Hr. f_equal.
    destruct (eq_str (designChecksum m) c) eqn:He; [|reflexivity].
    now apply eq_str_true in He.
  - intros design_name metadata_name Hdn Hmn -> ->.
    destruct design_name as [|d0 dn]; [congruence|].
    destruct metadata_name as [|m0 mn]; [congruence|].
    unfold place_order. rewrite Hr. cbn [mbind result_bind Py.bind].
    now destruct (eq_str (designChecksum m) c).
Qed.

End ProviderFacts.

(** ** Further properties of the library *)

Section ChecksumFormat.
Import BioDesignMetadataLibrary.

Lemma sha_round_length (st : list Z) (kw : Z * Z) :
  length (Sha256.round st kw) = length st.
Proof.
  unfold Sha256.round.
  destruct st as [|a [|b [|c [|d [|e [|f [|g [|h [|i st]]]]]]]]]; reflexivity.
Qed.

Lemma sha_rounds_length (kws : list (Z * Z)) (st : list Z) :
  length (fold_left Sha256.round kws st) = length st.
Proof.
  revert st. induction kws as [|kw kws IH]; intros st; [reflexivity|].
  cbn [fold_left]. now rewrite IH, sha_round_length.
Qed.

Lemma compress_length (h block : list Z) :
  length (Sha256.compress h block) = length h.
Proof.
  unfold Sha256.compress.
  rewrite length_map, length_combine, sha_rounds_length. lia.
Qed.

Lemma compress_all_length (blocks : list (list Z)) (h : list Z) :
  length (fold_left Sha256.compress blocks h) = length h.
Proof.
  revert h. induction blocks as [|b blocks IH]; intros h; [reflexivity|].
  cbn [fold_left]. now rewrite IH, compress_length.
Qed.

Lemma be_bytes_length (n : nat) (x : Z) : length (Sha256.be_bytes n x) = n.
Proof. induction n as [|n IH]; cbn; auto. Qed.

Lemma digest_length (msg : bytes) : length (Sha256.digest msg) = 32%nat.
Proof.
  unfold Sha256.digest.
  set (h := fold_left _ _ _).
  assert (Hh : length h = 8%nat).
  { unfold h. rewrite compress_all_length. vm_compute. reflexivity. }
  clearbody h.
  do 9 (destruct h as [|? h]; try discriminate Hh).
  cbn [map concat]. rewrite !length_app, !be_bytes_length. reflexivity.
Qed.

Lemma hex_of_bytes_format (bs : bytes) :
  length (Hex.of_bytes bs) = (2 * length bs)%nat
  /\ Forall (fun c => 48 <= c <= 57 \/ 97 <= c <= 102) (Hex.of_bytes bs).
Proof.
  unfold Hex.of_bytes. induction bs as [|b bs [IHl IHf]]; [split; [reflexivity|constructor]|].
  cbn [map concat]. split.
  - rewrite length_app, IHl. cbn. lia.
  - apply Forall_app. split; [|assumption].
    pose proof (Z_of_byte_range b) as Hb.
    unfold Hex.of_byte, Hex.digit.
    apply Forall_cons; [|apply Forall_cons; [|constructor]].
    + destruct (Z.ltb_spec (Z_of_byte b / 16) 10);
        Z.div_mod_to_equations; lia.
    + destruct (Z.ltb_spec (Z_of_byte b mod 16) 10);
        Z.div_mod_to_equations; lia.
Qed.

Context `{U : Unicode}.

(** X1. Checksum format: a checksum [calculate_checksum] returns is a
    string of 64 characters, each a digit or a letter from [a] to [f]. *)
Theorem checksum_format (input c : str) :
  calculate_checksum input = Ok c ->
  length c = 64%nat
  /\ Forall (fun ch => 48 <= ch <= 57 \/ 97 <= ch <= 102) c.
Proof.
  unfold calculate_checksum.
  destruct (Utf8.encode (str_lower input)) as [data|]; [|discriminate].
  cbn [mbind result_bind Py.bind]. intros [= <-].
  unfold Sha256.hexdigest.
  destruct (hex_of_bytes_format (Sha256.digest data)) as [Hl Hf].
  rewrite digest_length in Hl. split; assumption.
Qed.

End ChecksumFormat.

Section CryptoErrors.
Import BioDesignMetadataLibrary.

Lemma encode_char_raises (c : Z) (e : exn) :
  Utf8.encode_char c = Raise e -> e = UnicodeEncodeError.
Proof.
  unfold Utf8.encode_char.
  repeat match goal with
         | |- context [if ?b then _ else _] => destruct b
         end; congruence.
Qed.

Lemma encode_raises (s : str) (e : exn) :
  Utf8.encode s = Raise e -> e = UnicodeEncodeError.
Proof.
  induction s as [|c s IH]; [discriminate|].
  cbn [Utf8.encode].
  destruct (Utf8.encode_char c) as [bs|e'] eqn:Hc.
  - cbn [mbind result_bind Py.bind].
    destruct (Utf8.encode s) as [rest|e'']; [discriminate|].
    cbn [mbind result_bind Py.bind]. intros [= <-]. now apply IH.
  - cbn [mbind result_bind Py.bind]. intros [= <-].
    now apply encode_char_raises in Hc.
Qed.

Lemma decode_raises_aux (n : nat) :
  forall (bs : bytes) (e : exn),
    (length bs <= n)%nat ->
    Utf8.decode bs = Raise e -> e = UnicodeDecodeError.
Proof.
  induction n as [|n IH]; intros bs e Hn.
  - destruct bs; [discriminate | cbn in Hn; lia].
  - destruct bs as [|b0 r0]; [discriminate|].
    cbn [Utf8.decode]. cbn [length] in Hn.
    assert (Hrec : forall r e',
               (length r <= n)%nat ->
               forall c : Z, (s ← Utf8.decode r; Ok (c :: s)) = Raise e' ->
               e' = UnicodeDecodeError).
    { intros r e' Hr c. destruct (Utf8.decode r) as [x|e''] eqn:Hd.
      - discriminate.
      - cbn [mbind result_bind Py.bind]. intros [= <-].
        eapply IH; eassumption. }
    destruct (Z_of_byte b0 <? 128).
    { apply (Hrec r0 e); lia. }
    destruct (Z_of_byte b0 <? 192); [congruence|].
    destruct (Z_of_byte b0 <? 224).
    { destruct r0 as [|b1 r1]; [congruence|].
      destruct (_ && _); [|congruence].
      apply (Hrec r1 e). cbn [length] in Hn. lia. }
    destruct (Z_of_byte b0 <? 240).
    { destruct r0 as [|b1 [|b2 r2]]; try congruence.
      destruct (_ && _); [|congruence].
      apply (Hrec r2 e). cbn [length] in Hn. lia. }
    destruct (Z_of_byte b0 <? 248); [|congruence].
    destruct r0 as [|b1 [|b2 [|b3 r3]]]; try congruence.
    destruct (_ && _); [|congruence].
    apply (Hrec r3 e). cbn [length] in Hn. lia.
Qed.

Lemma decode_raises (bs : bytes) (e : exn) :
  Utf8.decode bs = Raise e -> e = UnicodeDecodeError.
Proof. apply (decode_raises_aux (length bs)). lia. Qed.

Lemma encode_ascii_raises (s : str) (e : exn) :
  Utf8.encode_ascii s = Raise e -> e = ValueError.
Proof.
  induction s as [|c s IH]; [discriminate|].
  cbn [Utf8.encode_ascii]. destruct (_ && _); [|congruence].
  destruct (Utf8.encode_ascii s) as [rest|e']; [discriminate|].
  cbn [mbind result_bind Py.bind]. intros [= <-]. now apply IH.
Qed.

Lemma a2b_raises (data : bytes) :
  forall quad_pos leftchar pads out e,
    Base64.a2b_base64 quad_pos leftchar pads out data = Raise e ->
    e = BinasciiError.
Proof.
  induction data as [|ch rest IH]; intros quad_pos leftchar pads out e.
  - cbn [Base64.a2b_base64]. destruct (quad_pos =? 0); congruence.
  - cbn [Base64.a2b_base64].
    repeat match goal with
           | |- context [if ?b then _ else _] => destruct b
           | |- context [match Base64.index ?c with _ => _ end] =>
               destruct (Base64.index c)
           end; try discriminate; apply IH.
Qed.

Lemma b64decode_raises (s : str) (e : exn) :
  Base64.b64decode s = Raise e -> is_ValueError e = true.
Proof.
  unfold Base64.b64decode.
  destruct (Utf8.encode_ascii s) as [data|e'] eqn:Ha.
  - cbn [mbind result_bind Py.bind]. intros H.
    apply a2b_raises in H as ->. reflexivity.
  - cbn [mbind result_bind Py.bind]. intros [= <-].
    apply encode_ascii_raises in Ha as ->. reflexivity.
Qed.

Lemma cipher_raises (key iv : bytes) (e : exn) :
  Cbc.cipher key iv = Raise e -> e = ValueError.
Proof.
  unfold Cbc.cipher.
  repeat match goal with
         | |- context [if ?b then _ else _] => destruct b
         end; congruence.
Qed.

Lemma cbc_encrypt_raises (key iv data : bytes) (e : exn) :
  Cbc.encrypt key iv data = Raise e -> e = ValueError.
Proof. unfold Cbc.encrypt. destruct (negb _); congruence. Qed.

Lemma cbc_decrypt_raises (key iv data : bytes) (e : exn) :
  Cbc.decrypt key iv data = Raise e -> e = ValueError.
Proof. unfold Cbc.decrypt. destruct (negb _); congruence. Qed.

Lemma unpad_raises (data : bytes) (e : exn) :
  Pkcs7.unpad data = Raise e -> e = ValueError.
Proof.
  unfold Pkcs7.unpad.
  repeat match goal with
         | |- context [if ?b then _ else _] => destruct b
         end; congruence.
Qed.

Lemma decrypt_string_raises (encryption_key : option str) (token : str)
      (e : exn) :
  decrypt_string encryption_key token = Raise e -> is_ValueError e = true.
Proof.
  unfold decrypt_string.
  destruct encryption_key as [[|k0 ks]|]; try (intros [= <-]; reflexivity).
  destruct (Utf8.encode (k0 :: ks)) as [key|e0] eqn:Hk.
  2: { cbn [mbind result_bind Py.bind]. intros [= <-].
       apply encode_raises in Hk as ->. reflexivity. }
  cbn [mbind result_bind Py.bind].
  destruct (Base64.b64decode token) as [d|e0] eqn:Hd.
  2: { cbn [mbind result_bind Py.bind]. intros [= <-].
       now apply b64decode_raises in Hd. }
  cbn [mbind result_bind Py.bind].
  destruct (Cbc.cipher key (firstn 16 d)) as [u|e0] eqn:Hc.
  2: { cbn [mbind result_bind Py.bind]. intros [= <-].
       apply cipher_raises in Hc as ->. reflexivity. }
  cbn [mbind result_bind Py.bind].
  destruct (Cbc.decrypt key (firstn 16 d) (skipn 16 d)) as [p|e0] eqn:Hp.
  2: { cbn [mbind result_bind Py.bind]. intros [= <-].
       apply cbc_decrypt_raises in Hp as ->. reflexivity. }
  cbn [mbind result_bind Py.bind].
  destruct (Pkcs7.unpad p) as [x|e0] eqn:Hu.
  2: { cbn [mbind result_bind Py.bind]. intros [= <-].
       apply unpad_raises in Hu as ->. reflexivity. }
  cbn [mbind result_bind Py.bind]. intros H.
  apply decode_raises in H as ->. reflexivity.
Qed.

Lemma encrypt_string_raises (encryption_key : option str) (iv : bytes)
      (S : str) (e : exn) :
  encrypt_string encryption_key iv S = Raise e -> is_ValueError e = true.
Proof.
  unfold encrypt_string.
  destruct encryption_key as [[|k0 ks]|]; try (intros [= <-]; reflexivity).
  destruct (Utf8.encode (k0 :: ks)) as [key|e0] eqn:Hk.
  2: { cbn [mbind result_bind Py.bind]. intros [= <-].
       apply encode_raises in Hk as ->. reflexivity. }
  cbn [mbind result_bind Py.bind].
  destruct (Cbc.cipher key iv) as [u|e0] eqn:Hc.
  2: { cbn [mbind result_bind Py.bind]. intros [= <-].
       apply cipher_raises in Hc as ->. reflexivity. }
  cbn [mbind result_bind Py.bind].
  destruct (Utf8.encode S) as [data|e0] eqn:Hs.
  2: { cbn [mbind result_bind Py.bind]. intros [= <-].
       apply encode_raises in Hs as ->. reflexivity. }
  cbn [mbind result_bind Py.bind].
  destruct (Cbc.encrypt key iv (Pkcs7.pad data)) as [ct|e0] eqn:Hct.
  2: { cbn [mbind result_bind Py.bind]. intros [= <-].
       apply cbc_encrypt_raises in Hct as ->. reflexivity. }
  cbn [mbind result_bind Py.bind]. intros H.
  apply decode_raises in H as ->. reflexivity.
Qed.

(** X2. Failures of the encryption boundary: every exception
    [encrypt_string] or [decrypt_string] raises, whatever the key, the
    text and the token, is of a class derived from [ValueError], the one
    class the command loop of the tool catches. *)
Theorem crypto_failures_are_ValueErrors :
  (forall encryption_key iv S e,
      encrypt_string encryption_key iv S = Raise e -> is_ValueError e = true)
  /\ (forall encryption_key token e,
         decrypt_string encryption_key token = Raise e ->
         is_ValueError e = true).
Proof. split; [apply encrypt_string_raises | apply decrypt_string_raises]. Qed.

(** X3. Unusable key: when [ENCRYPTION_KEY] is not set, or is set to a
    string whose UTF-8 encoding does not have 16, 24 or 32 bytes (the
    empty string among them), [encrypt_string] and [decrypt_string] never
    return: they raise an exception of class [ValueError], whatever the
    text or token. *)
Theorem unusable_key_rejected (encryption_key : option str) :
  (forall k key,
      encryption_key = Some k -> Utf8.encode k = Ok key ->
      Cbc.valid_key key = false) ->
  (forall iv S, exists e,
      encrypt_string encryption_key iv S = Raise e /\ is_ValueError e = true)
  /\ (forall token, exists e,
         decrypt_string encryption_key token = Raise e
         /\ is_ValueError e = true).
Proof.
  intros Hbad.
  assert (He : forall iv S, exists e,
               encrypt_string encryption_key iv S = Raise e).
  { intros iv S. unfold encrypt_string.
    destruct encryption_key as [[|k0 ks]|]; eauto.
    destruct (Utf8.encode (k0 :: ks)) as [key|e0] eqn:Hk; eauto.
    cbn [mbind result_bind Py.bind]. unfold Cbc.cipher.
    rewrite (Hbad _ _ eq_refl Hk). cbn; eauto. }
  assert (Hd : forall token, exists e,
               decrypt_string encryption_key token = Raise e).
  { intros token. unfold decrypt_string.
    destruct encryption_key as [[|k0 ks]|]; eauto.
    destruct (Utf8.encode (k0 :: ks)) as [key|e0] eqn:Hk; eauto.
    cbn [mbind result_bind Py.bind].
    destruct (Base64.b64decode token) as [d|e0]; eauto.
    cbn [mbind result_bind Py.bind]. unfold Cbc.cipher.
    rewrite (Hbad _ _ eq_refl Hk). cbn; eauto. }
  split.
  - intros iv S. destruct (He iv S) as [e H]. exists e.
    split; [assumption|]. eapply encrypt_string_raises; eassumption.
  - intros token. destruct (Hd token) as [e H]. exists e.
    split; [assumption|]. eapply decrypt_string_raises; eassumption.
Qed.

End CryptoErrors.

Section TokenLength.
Import BioDesignMetadataLibrary.

Lemma b2a_length (data : bytes) :
  length (Base64.b2a_base64 data) = (4 * ((length data + 2) / 3))%nat.
Proof.
  induction data as [|a|a b|a b c data IH] using list_ind3;
    try reflexivity.
  cbn [Base64.b2a_base64 length]. rewrite IH.
  replace (S (S (S (length data))) + 2)%nat
    with (1 * 3 + (length data + 2))%nat by lia.
  rewrite Nat.div_add_l by lia. lia.
Qed.

Lemma chunks_length (n : nat) (data : bytes) :
  length (Cbc.chunks n data) = n.
Proof.
  revert data. induction n as [|n IH]; intros data; cbn; auto.
Qed.

Lemma encrypt_blocks_count (w : bytes) (nr : nat) (blocks : list bytes) :
  forall prev, length (Cbc.encrypt_blocks w nr prev blocks) = length blocks.
Proof.
  induction blocks as [|p blocks IH]; intros prev; cbn; auto.
Qed.

Lemma cbc_encrypt_length (key iv data ct : bytes) :
  length iv = 16%nat ->
  Cbc.encrypt key iv data = Ok ct ->
  length ct = length data.
Proof.
  intros Hiv. unfold Cbc.encrypt, Cbc.block_len.
  destruct (length data mod 16 =? 0)%nat eqn:Hm; [|discriminate].
  cbn [negb]. intros Hct.
  set (w := Aes.key_expansion key) in *. set (nr := Aes.rounds_of key) in *.
  assert (ct = concat (Cbc.encrypt_blocks w nr iv
                         (Cbc.chunks (length data / 16) data))) as ->
    by congruence.
  clear Hct. apply Nat.eqb_eq in Hm.
  assert (Hl : length data = (length data / 16 * 16)%nat).
  { pose proof (Nat.div_mod_eq (length data) 16). lia. }
  destruct (chunks_blocks _ _ Hl) as [Hf _].
  pose proof (encrypt_blocks_length w nr _ Hf iv Hiv) as He.
  destruct (chunks_concat _ He) as [_ ->].
  rewrite encrypt_blocks_count, chunks_length. lia.
Qed.

Lemma pad_length_exact (data : bytes) :
  length (Pkcs7.pad data) = (16 * (length data / 16 + 1))%nat.
Proof.
  unfold Pkcs7.pad, Pkcs7.block_size. rewrite length_app, repeat_length.
  pose proof (Nat.mod_upper_bound (length data) 16 ltac:(lia)).
  pose proof (Nat.div_mod_eq (length data) 16). lia.
Qed.

Lemma b2a_forall (P : byte -> Prop) (data : bytes) :
  P Base64.pad_char ->
  (forall i, 0 <= i < 64 -> P (Base64.char i)) ->
  Forall P (Base64.b2a_base64 data).
Proof.
  intros Hpad Hchar.
  induction data as [|a|a b|a b c data IH] using list_ind3;
    cbn [Base64.b2a_base64];
    repeat match goal with
           | |- Forall _ [] => constructor
           | |- Forall _ (Base64.pad_char :: _) =>
               constructor; [exact Hpad|]
           | |- Forall _ (Base64.char _ :: _) =>
               constructor;
               [apply Hchar;
                repeat match goal with
                       | |- context [Z_of_byte ?x] =>
                           lazymatch goal with
                           | _ : 0 <= Z_of_byte x < 256 |- _ => fail
                           | _ => pose proof (Z_of_byte_range x)
                           end
                       end; Z.div_mod_to_equations; lia|]
           end; assumption.
Qed.

(** X4. Token size: a token [encrypt_string] returns consists of
    characters of the base64 alphabet and [=]; its length is that of the
    base64 encoding of 16 bytes of IV and of the padded plaintext, so it
    depends on the text only through the number of whole 16-byte blocks
    of its UTF-8 encoding. *)
Theorem token_length (encryption_key : option str) (iv : bytes)
        (S token : str) :
  encrypt_string encryption_key iv S = Ok token ->
  exists data,
    Utf8.encode S = Ok data
    /\ length token
       = (4 * ((16 + 16 * (length data / 16 + 1) + 2) / 3))%nat
    /\ Forall (fun c => c = 61 \/ is_Some (Base64.index (byte_of_Z c))) token.
Proof.
  intros Henc.
  destruct (encrypt_string_inv _ _ _ _ Henc) as (Hiv & _).
  revert Henc. unfold encrypt_string.
  destruct encryption_key as [[|k0 ks]|]; try discriminate.
  destruct (Utf8.encode (k0 :: ks)) as [key|]; [|discriminate].
  cbn [mbind result_bind Py.bind].
  destruct (Cbc.cipher key iv) as [u|]; [|discriminate].
  cbn [mbind result_bind Py.bind].
  destruct (Utf8.encode S) as [data|]; [|discriminate].
  cbn [mbind result_bind Py.bind].
  destruct (Cbc.encrypt key iv (Pkcs7.pad data)) as [ct|] eqn:Hct;
    [|discriminate].
  cbn [mbind result_bind Py.bind]. intros Hdec.
  exists data. split; [reflexivity|].
  pose proof (b2a_ascii (iv ++ ct)) as Ha.
  unfold Base64.b64encode in Hdec. rewrite (decode_ascii _ Ha) in Hdec.
  injection Hdec as <-. split.
  - rewrite length_map, b2a_length, length_app, Hiv.
    rewrite (cbc_encrypt_length _ _ _ _ Hiv Hct), pad_length_exact.
    reflexivity.
  - apply Forall_map.
    apply b2a_forall; cbn beta.
    + left. vm_compute. reflexivity.
    + intros i Hi. right. rewrite byte_of_Z_of_byte, index_char by assumption.
      eauto.
Qed.

End TokenLength.

Section Revisions.
Import BioDesignMetadataLibrary.
Context `{D : DiffMatchPatch}.

(** What one round of the loop of [compute_revisions] does. *)
Lemma revisions_loop_inv current_revision last_design operation rest revisions :
  revisions_loop current_revision last_design (operation :: rest)
  = Ok revisions ->
  exists op next tail,
    new_operation operation = Ok op
    /\ (if truthy (change op)
        then exists patches,
            patch_fromText_value (change op) = Ok patches
            /\ next = fst (patch_apply patches last_design)
        else next = last_design)
    /\ revisions_loop (current_revision - 1) next rest = Ok tail
    /\ revisions
       = {| revision := current_revision;
            design := last_design;
            rev_operationCode := operationCode op;
            rev_operationDetails := operationDetails op;
            rev_change := change op;
            rev_timestamp := timestamp op;
            rev_tool := tool op |} :: tail.
Proof.
  cbn [revisions_loop].
  destruct (new_operation operation) as [op|]; [|discriminate].
  cbn [mbind result_bind Py.bind].
  destruct (truthy (change op)) eqn:Ht.
  - destruct (patch_fromText_value (change op)) as [patches|] eqn:Hp;
      [|discriminate].
    cbn [mbind result_bind Py.bind].
    destruct (revisions_loop _ _ rest) as [tail|] eqn:Hr; [|discriminate].
    cbn [mbind result_bind Py.bind]. intros [= <-].
    exists op, (fst (patch_apply patches last_design)), tail.
    rewrite Ht. eauto 10.
  - cbn [mbind result_bind Py.bind].
    destruct (revisions_loop _ _ rest) as [tail|] eqn:Hr; [|discriminate].
    cbn [mbind result_bind Py.bind]. intros [= <-].
    exists op, last_design, tail. rewrite Ht. eauto 10.
Qed.

Lemma revisions_loop_shape (changelog : list json) :
  forall current_revision last_design revisions,
    revisions_loop current_revision last_design changelog = Ok revisions ->
    map revision revisions
    = map (fun k => current_revision - Z.of_nat k) (seq 0 (length changelog))
    /\ Forall2 (fun r operation =>
                  new_operation operation
                  = Ok {| operationCode := rev_operationCode r;
                          operationDetails := rev_operationDetails r;
                          change := rev_change r;
                          timestamp := rev_timestamp r;
                          tool := rev_tool r |})
               revisions changelog
    /\ head (map design revisions)
       = head (map (fun _ => last_design) changelog).
Proof.
  induction changelog as [|operation rest IH];
    intros current_revision last_design revisions Hr.
  - cbn in Hr. injection Hr as <-. repeat split. constructor.
  - apply revisions_loop_inv in Hr
      as (op & next & tail & Hop & _ & Hrest & ->).
    destruct (IH _ _ _ Hrest) as (Hn & Hf & _).
    cbn [map length seq revision head design]. repeat split.
    + f_equal; [lia|]. rewrite Hn, <- seq_shift, map_map.
      apply map_ext. intros k. lia.
    + constructor; [|assumption].
      cbn [rev_operationCode rev_operationDetails rev_change rev_timestamp
           rev_tool]. now destruct op.
Qed.

Lemma countdown (n : nat) :
  map (fun k => Z.of_nat n - Z.of_nat k) (seq 0 n)
  = rev (map Z.of_nat (seq 1 n)).
Proof.
  induction n as [|n IH]; [reflexivity|].
  rewrite (seq_S n 1), map_app, rev_app_distr.
  cbn [seq map rev app].
  replace (Z.of_nat (S n) - Z.of_nat 0) with (Z.of_nat (1 + n)) by lia.
  f_equal.
  rewrite <- IH, <- seq_shift, map_map.
  apply map_ext. intros k. lia.
Qed.

(** X5. Shape of the revisions: on any changelog, a list
    [compute_revisions] returns has one revision per entry, numbered from
    the length of the changelog down to 1; the revisions carry the fields
    of the entries, last entry first, and the first revision carries the
    design given. *)
Theorem revisions_shape (last_design : str) (changelog : list json)
        (revisions : list Revision) :
  compute_revisions last_design changelog = Ok revisions ->
  length revisions = length changelog
  /\ map revision revisions = rev (map Z.of_nat (seq 1 (length changelog)))
  /\ Forall2 (fun r operation =>
                new_operation operation
                = Ok {| operationCode := rev_operationCode r;
                        operationDetails := rev_operationDetails r;
                        change := rev_change r;
                        timestamp := rev_timestamp r;
                        tool := rev_tool r |})
             revisions (rev changelog)
  /\ forall r rest, revisions = r :: rest -> design r = last_design.
Proof.
  unfold compute_revisions. intros Hr.
  apply revisions_loop_shape in Hr as (Hn & Hf & Hh).
  rewrite length_rev in Hn.
  assert (Hl : length revisions = length changelog).
  { rewrite <- (length_map revision), Hn, length_map. apply length_seq. }
  repeat split; try assumption.
  - rewrite Hn. apply countdown.
  - intros r rest ->. destruct (rev changelog); [inversion Hf|].
    cbn in Hh. congruence.
Qed.

Lemma revisions_loop_chain (changelog : list json) :
  forall current_revision last_design revisions,
    revisions_loop current_revision last_design changelog = Ok revisions ->
    forall k r r',
      revisions !! k = Some r -> revisions !! S k = Some r' ->
      if truthy (rev_change r)
      then exists patches,
          patch_fromText_value (rev_change r) = Ok patches
          /\ design r' = fst (patch_apply patches (design r))
      else design r' = design r.
Proof.
  induction changelog as [|operation rest IH];
    intros current_revision last_design revisions Hr k r r' Hk Hk'.
  - cbn in Hr. injection Hr as <-. discriminate.
  - apply revisions_loop_inv in Hr
      as (op & next & tail & Hop & Hnext & Hrest & ->).
    destruct k as [|k].
    + cbn in Hk. injection Hk as <-. cbn in Hk'.
      cbn [rev_change design].
      apply revisions_loop_shape in Hrest as (_ & _ & Hh).
      destruct tail as [|t tail]; [discriminate|].
      cbn in Hk'. injection Hk' as ->.
      destruct rest; [discriminate|]. cbn in Hh. injection Hh as Hd.
      rewrite Hd. destruct (truthy (change op)).
      * destruct Hnext as (patches & Hp & ->). eauto.
      * assumption.
    + cbn in Hk, Hk'. eapply IH; eassumption.
Qed.

(** X6. Chain of designs: in a list [compute_revisions] returns, the
    design of each revision after the first is the design of the one
    before it with that one's patches applied, and is the same design when
    that one's [change] is empty. *)
Theorem revisions_chain (last_design : str) (changelog : list json)
        (revisions : list Revision) :
  compute_revisions last_design changelog = Ok revisions ->
  forall k r r',
    revisions !! k = Some r -> revisions !! S k = Some r' ->
    if truthy (rev_change r)
    then exists patches,
        patch_fromText_value (rev_change r) = Ok patches
        /\ design r' = fst (patch_apply patches (design r))
    else design r' = design r.
Proof. unfold compute_revisions. apply revisions_loop_chain. Qed.

Lemma revisions_loop_malformed (changelog : list json) (operation : json)
      (e : exn) :
  operation ∈ changelog ->
  new_operation operation = Raise e ->
  forall current_revision last_design,
    is_ok (revisions_loop current_revision last_design changelog) = false.
Proof.
  intros Hin Hop. induction changelog as [|other rest IH];
    intros current_revision last_design; [inversion Hin|].
  cbn [revisions_loop]. apply elem_of_cons in Hin as [<-|Hin].
  - rewrite Hop. reflexivity.
  - destruct (new_operation other) as [op|]; [|reflexivity].
    cbn [mbind result_bind Py.bind].
    destruct (if truthy (change op) then _ else _) as [next|]; [|reflexivity].
    cbn [mbind result_bind Py.bind].
    specialize (IH Hin (current_revision - 1) next).
    destruct (revisions_loop _ _ rest); [discriminate|reflexivity].
Qed.

(** X7. Malformed entry: an entry of the changelog that is not a dict
    with exactly the five fields of an operation is refused with a
    [TypeError], and then [compute_revisions] returns no revision at all:
    it raises, wherever in the changelog the entry is. *)
Theorem revisions_malformed_entry (last_design : str)
        (changelog : list json) (operation : json) (e : exn) :
  operation ∈ changelog ->
  new_operation operation = Raise e ->
  e = TypeError
  /\ exists e', compute_revisions last_design changelog = Raise e'.
Proof.
  intros Hin Hop. split.
  - revert Hop. unfold new_operation.
    repeat match goal with
           | |- context [match ?x with _ => _ end] => destruct x
           end; congruence.
  - unfold compute_revisions.
    assert (Hin' : operation ∈ rev changelog).
    { apply list_elem_of_In, in_rev. rewrite rev_involutive.
      now apply list_elem_of_In. }
    pose proof (revisions_loop_malformed _ _ _ Hin' Hop
                  (Z.of_nat (length changelog)) last_design) as H.
    destruct (revisions_loop _ _ _) as [|e']; [discriminate|eauto].
Qed.

End Revisions.

(** ** The tool: strings, the command line and the editing operations *)

Section PyStrFacts.
Import PyStr.

Lemma split_nonempty (sep : Z) (s : str) : split sep s <> [].
Proof.
  destruct s as [|c s]; [discriminate|]. cbn [split].
  destruct (c =? sep); [discriminate|]. destruct (split sep s); discriminate.
Qed.

Lemma split_without (sep : Z) (s : str) : sep ∉ s -> split sep s = [s].
Proof.
  induction s as [|c s IH]; intros Hs; [reflexivity|].
  cbn [split]. apply not_elem_of_cons in Hs as [Hc Hs].
  destruct (Z.eqb_spec c sep); [congruence|]. now rewrite IH.
Qed.

Lemma split_app (sep : Z) (a b : str) :
  split sep (a ++ sep :: b) = split sep a ++ split sep b.
Proof.
  induction a as [|c a IH]; cbn [app split].
  - now rewrite Z.eqb_refl.
  - destruct (c =? sep); [now rewrite IH|].
    rewrite IH. pose proof (split_nonempty sep a).
    destruct (split sep a); [congruence|reflexivity].
Qed.

Lemma slice_to (A : Type) (s : list A) (p : Z) :
  0 <= p <= Z.of_nat (length s) ->
  slice s None (Some p) = firstn (Z.to_nat p) s.
Proof.
  intros Hp. unfold slice, clamp.
  destruct (Z.ltb_spec p 0); [lia|].
  rewrite Z.min_l, Z.sub_0_r by lia. reflexivity.
Qed.

Lemma slice_from (A : Type) (s : list A) (p : Z) :
  0 <= p <= Z.of_nat (length s) ->
  slice s (Some p) None = skipn (Z.to_nat p) s.
Proof.
  intros Hp. unfold slice, clamp.
  destruct (Z.ltb_spec p 0); [lia|].
  rewrite Z.min_l by lia. apply firstn_all2. rewrite length_skipn. lia.
Qed.

Lemma slice_between (A : Type) (s : list A) (a b : Z) :
  0 <= a <= b -> b <= Z.of_nat (length s) ->
  slice s (Some a) (Some b)
  = firstn (Z.to_nat (b - a)) (skipn (Z.to_nat a) s).
Proof.
  intros Ha Hb. unfold slice, clamp.
  destruct (Z.ltb_spec a 0); [lia|]. destruct (Z.ltb_spec b 0); [lia|].
  now rewrite !Z.min_l by lia.
Qed.

Lemma get_elem_of (d : list (str * str)) (key value : str) :
  get d key = Some value -> (key, value) ∈ d.
Proof.
  induction d as [|[k v] d IH]; [discriminate|]. cbn [get].
  case_bool_decide as Hk.
  - intros [= <-]. subst. left.
  - intros H. right. auto.
Qed.

Lemma join_nil (parts : list str) : join [] parts = concat parts.
Proof.
  induction parts as [|p [|q parts] IH]; [reflexivity| |].
  - cbn. now rewrite app_nil_r.
  - cbn [join concat app] in *. now rewrite IH.
Qed.

End PyStrFacts.

(** ** The command line *)

Section CommandLine.
Import PyStr MainBiodesign.

(** The dict built from [args] when each of them splits in two. *)
Lemma parse_args_ok (kvs : list (str * str)) :
  Forall (fun kv => (61 ∉ fst kv) /\ (61 ∉ snd kv)) kvs ->
  forall cmd_args,
    fold_left add_arg (map (fun kv => fst kv ++ 61 :: snd kv) kvs) (Some cmd_args)
    = Some (fold_left (fun m kv => <[fst kv := snd kv]> m) kvs cmd_args).
Proof.
  induction 1 as [|[k v] kvs [Hk Hv] _ IH]; intros cmd_args; [reflexivity|].
  cbn [map fold_left fst snd] in *. unfold add_arg at 2. cbn [mbind option_bind].
  rewrite split_app, !split_without by assumption. apply IH.
Qed.

Lemma parse_args_fail (args : list str) (arg : str) :
  arg ∈ args ->
  length (split 61 arg) <> 2%nat ->
  forall cmd_args,
    fold_left add_arg args cmd_args
    = None.
Proof.
  intros Hin Hlen.
  assert (Hnone : forall l : list str, fold_left add_arg l None = None).
  { induction l; [reflexivity|assumption]. }
  induction args as [|a args IH]; intros cmd_args; [inversion Hin|].
  cbn [fold_left]. apply elem_of_cons in Hin as [<-|Hin].
  - destruct cmd_args as [m|]; [|apply Hnone]. unfold add_arg at 2.
    cbn [mbind option_bind].
    destruct (split 61 arg) as [|x [|y [|z l]]]; try apply Hnone.
    cbn in Hlen. lia.
  - now apply IH.
Qed.

Lemma split_args (kvs : list (str * str)) :
  Forall (fun kv => (32 ∉ fst kv) /\ (32 ∉ snd kv)) kvs ->
  forall name : str,
    32 ∉ name ->
    split 32 (name ++ concat (map (fun kv => 32 :: fst kv ++ 61 :: snd kv) kvs))
    = name :: map (fun kv => fst kv ++ 61 :: snd kv) kvs.
Proof.
  induction 1 as [|[k v] kvs [Hk Hv] _ IH]; intros name Hname.
  - cbn. rewrite app_nil_r. now apply split_without.
  - cbn [map concat fst snd]. cbn [app].
    rewrite split_app, (split_without _ name) by assumption. cbn [app].
    f_equal. apply IH.
    intros Hin. apply elem_of_app in Hin as [Hin|Hin]; [contradiction|].
    apply elem_of_cons in Hin as [Hin|Hin]; [discriminate|contradiction].
Qed.

(** X8. A command written as its name followed by [ name=value] for each
    argument, none of the names and values holding a space or an equals
    sign, is read back as that name and those arguments, a later argument
    of the same name replacing an earlier one. *)
Theorem parse_cmd_and_args_round_trip (name : str) (kvs : list (str * str)) :
  32 ∉ name ->
  Forall (fun kv => ((32 ∉ fst kv) /\ (61 ∉ fst kv))
                    /\ ((32 ∉ snd kv) /\ (61 ∉ snd kv))) kvs ->
  parse_cmd_and_args
    (name ++ concat (map (fun kv => 32 :: fst kv ++ 61 :: snd kv) kvs))
  = Some (name, fold_left (fun m kv => <[fst kv := snd kv]> m) kvs ∅).
Proof.
  intros Hname Hkvs. unfold parse_cmd_and_args.
  rewrite split_args;
    [|eapply Forall_impl; [|exact Hkvs]; cbn beta; tauto|assumption].
  rewrite parse_args_ok; [reflexivity|].
  eapply Forall_impl; [|exact Hkvs]. cbn beta. tauto.
Qed.

(** X9. A command is refused as a whole when one of its arguments does
    not consist of exactly two parts around one equals sign; so is every
    command that ends with a space or holds two spaces in a row. *)
Theorem parse_cmd_and_args_rejects :
  (forall cmd cmd_name args arg,
      split 32 cmd = cmd_name :: args ->
      arg ∈ args ->
      length (split 61 arg) <> 2%nat ->
      parse_cmd_and_args cmd = None)
  /\ (forall cmd, parse_cmd_and_args (cmd ++ [32]) = None)
  /\ (forall before after,
         parse_cmd_and_args (before ++ [32; 32] ++ after) = None).
Proof.
  assert (H1 : forall cmd cmd_name args arg,
             split 32 cmd = cmd_name :: args ->
             arg ∈ args ->
             length (split 61 arg) <> 2%nat ->
             parse_cmd_and_args cmd = None).
  { intros cmd cmd_name args arg Hs Hin Hlen. unfold parse_cmd_and_args.
    rewrite Hs, (parse_args_fail _ _ Hin Hlen). reflexivity. }
  split; [exact H1|]. split.
  - intros cmd. pose proof (split_nonempty 32 cmd) as Hne.
    destruct (split 32 cmd) as [|cmd_name args] eqn:Hs; [congruence|].
    apply (H1 _ cmd_name (args ++ [[]]) []).
    + rewrite split_app, Hs. reflexivity.
    + apply elem_of_app. right. left.
    + cbn. lia.
  - intros before after. pose proof (split_nonempty 32 before) as Hne.
    destruct (split 32 before) as [|cmd_name args] eqn:Hs; [congruence|].
    apply (H1 _ cmd_name (args ++ [] :: split 32 after) []).
    + cbn [app]. rewrite split_app, Hs. cbn [split].
      rewrite Z.eqb_refl. reflexivity.
    + apply elem_of_app. right. left.
    + cbn. lia.
Qed.

End CommandLine.

Section Editing.
Import PyStr.

(** X10. INSERT at a position within the sequence puts the inserted text
    there; DELETE of the range it occupies gives the sequence back. *)
Theorem insert_then_delete (original_seq insert_sequence : str) (p : Z) :
  0 <= p < Z.of_nat (length original_seq) ->
  exists modified,
    InsertOperation.modified_seq
      {| InsertOperation.insert_position := p;
         InsertOperation.insert_sequence := insert_sequence |} original_seq
    = Ok modified
    /\ modified
       = firstn (Z.to_nat p) original_seq ++ insert_sequence
         ++ skipn (Z.to_nat p) original_seq
    /\ DeleteOperation.modified_seq
         {| DeleteOperation.delete_start_position := p;
            DeleteOperation.delete_end_position :=
              p + Z.of_nat (length insert_sequence) |} modified
       = Ok original_seq.
Proof.
  intros Hp. eexists. split; [|split; [reflexivity|]].
  - unfold InsertOperation.modified_seq.
    cbn [InsertOperation.insert_position InsertOperation.insert_sequence].
    destruct (Z.leb_spec (Z.of_nat (length original_seq)) p); [lia|].
    rewrite slice_to, slice_from by lia. reflexivity.
  - unfold DeleteOperation.modified_seq.
    cbn [DeleteOperation.delete_start_position
         DeleteOperation.delete_end_position].
    set (a := firstn (Z.to_nat p) original_seq).
    set (b := skipn (Z.to_nat p) original_seq).
    assert (Ha : length a = Z.to_nat p)
      by (unfold a; rewrite length_firstn; lia).
    assert (Hb : length b = (length original_seq - Z.to_nat p)%nat)
      by (unfold b; apply length_skipn).
    rewrite !length_app.
    destruct (Z.leb_spec (Z.of_nat (length a + (length insert_sequence
                                                + length b))) p); [lia|].
    destruct (Z.leb_spec (Z.of_nat (length a + (length insert_sequence
                                                + length b)))
                (p + Z.of_nat (length insert_sequence))); [lia|].
    rewrite slice_to, slice_from by (rewrite !length_app; lia).
    f_equal.
    rewrite <- Ha at 1. rewrite take_app_length.
    replace (Z.to_nat (p + Z.of_nat (length insert_sequence)))
      with (length a + length insert_sequence)%nat by lia.
    rewrite app_assoc, <- length_app, drop_app_length.
    apply firstn_skipn.
Qed.

Lemma last_slice_from (s : str) (i : Z) :
  i < Z.of_nat (length s) ->
  s <> [] ->
  exists x, list.last (slice s (Some i) None) = Some x
            /\ list.last s = Some x.
Proof.
  intros Hi Hs. unfold slice, clamp.
  set (n := Z.of_nat (length s)) in *.
  set (a := if i <? 0 then Z.max (i + n) 0 else Z.min i n).
  assert (Ha : 0 <= a < n).
  { assert (0 < n) by (destruct s; [congruence|cbn in n; lia]).
    unfold a. destruct (Z.ltb_spec i 0); lia. }
  rewrite firstn_all2 by (rewrite length_skipn; lia).
  destruct (list.last (skipn (Z.to_nat a) s)) as [x|] eqn:Hx.
  - exists x. split; [reflexivity|].
    rewrite <- (firstn_skipn (Z.to_nat a) s), last_app.
    change (drop (Z.to_nat a) s) with (skipn (Z.to_nat a) s).
    now rewrite Hx.
  - apply last_None in Hx. apply (f_equal (@length Z)) in Hx.
    rewrite length_skipn in Hx. cbn in Hx. lia.
Qed.

(** X11. Neither INSERT nor DELETE reaches the end of a sequence: whatever
    the positions, a call that returns leaves the last base of a non-empty
    sequence the last base of the result. *)
Theorem last_base_kept (original_seq modified : str) :
  original_seq <> [] ->
  (forall self,
      InsertOperation.modified_seq self original_seq = Ok modified ->
      list.last modified = list.last original_seq)
  /\ (forall self,
         DeleteOperation.modified_seq self original_seq = Ok modified ->
         list.last modified = list.last original_seq).
Proof.
  intros Hs. split; intros self.
  - unfold InsertOperation.modified_seq.
    destruct (Z.leb_spec (Z.of_nat (length original_seq))
                (InsertOperation.insert_position self)); [discriminate|].
    intros [= <-].
    destruct (last_slice_from original_seq
                (InsertOperation.insert_position self)) as (x & Hx & ->);
      [lia|assumption|].
    now rewrite app_assoc, last_app, Hx.
  - unfold DeleteOperation.modified_seq.
    destruct (Z.leb_spec (Z.of_nat (length original_seq))
                (DeleteOperation.delete_start_position self));
      [discriminate|].
    destruct (Z.leb_spec (Z.of_nat (length original_seq))
                (DeleteOperation.delete_end_position self));
      [discriminate|].
    intros [= <-].
    destruct (last_slice_from original_seq
                (DeleteOperation.delete_end_position self)) as (x & Hx & ->);
      [lia|assumption|].
    now rewrite last_app, Hx.
Qed.

End Editing.

Section Translation.
Import PyStr TranslateProteinOperation.




End Translation.

Section Codons.
Import PyStr CodonOptimizeOperation.

Lemma replacement_length (codon : str) :
  length (default codon (get codon_replacements codon)) = length codon.
Proof.
  destruct (get codon_replacements codon) as [v|] eqn:Hg; [|reflexivity].
  apply get_elem_of in Hg.
  assert (Hall : Forall (fun kv => length (snd kv) = length (fst kv))
                        codon_replacements)
    by (unfold codon_replacements; repeat constructor).
  rewrite Forall_forall in Hall. apply (Hall (codon, v)).
  now apply list_elem_of_In.
Qed.

Lemma range3_step (n : nat) :
  range3 (S (S (S n))) = 0 :: map (fun i => i + 3) (range3 n).
Proof.
  unfold range3.
  replace (S (S (S n)) + 2)%nat with (1 * 3 + (n + 2))%nat by lia.
  rewrite Nat.div_add_l by lia. cbn [Nat.add seq map].
  f_equal. rewrite <- seq_shift, !map_map. apply map_ext. intros k. lia.
Qed.

Lemma slice_step (a b c : Z) (r : str) (i : Z) :
  0 <= i ->
  slice (a :: b :: c :: r) (Some (i + 3)) (Some (i + 3 + 3))
  = slice r (Some i) (Some (i + 3)).
Proof.
  intros Hi. unfold slice, clamp. cbn [length].
  destruct (Z.ltb_spec (i + 3) 0); [lia|].
  destruct (Z.ltb_spec (i + 3 + 3) 0); [lia|].
  destruct (Z.ltb_spec i 0); [lia|].
  set (n := Z.of_nat (length r)).
  replace (Z.of_nat (S (S (S (length r))))) with (n + 3) by lia.
  replace (Z.to_nat (Z.min (i + 3) (n + 3)))
    with (S (S (S (Z.to_nat (Z.min i n))))) by lia.
  cbn [skipn]. f_equal. lia.
Qed.

Lemma codons_step (a b c : Z) (r : str) :
  map (fun i => slice (a :: b :: c :: r) (Some i) (Some (i + 3)))
      (range3 (length (a :: b :: c :: r)))
  = [a; b; c]
      :: map (fun i => slice r (Some i) (Some (i + 3))) (range3 (length r)).
Proof.
  cbn [length]. rewrite range3_step. cbn [map]. f_equal.
  - rewrite slice_between by (cbn [length]; lia). reflexivity.
  - rewrite map_map. apply map_ext_in. intros i Hi.
    apply slice_step. unfold range3 in Hi.
    apply in_map_iff in Hi as (k & <- & _). lia.
Qed.

Lemma replace_codons_length (sequence : str) :
  length (replace_codons sequence) = length sequence.
Proof.
  unfold replace_codons. rewrite join_nil.
  induction sequence as [|a|a b|a b c r IH] using list_ind3.
  - reflexivity.
  - change (range3 (length [a])) with [0]. cbn [map concat].
    rewrite app_nil_r, replacement_length. reflexivity.
  - change (range3 (length [a; b])) with [0]. cbn [map concat].
    rewrite app_nil_r, replacement_length. reflexivity.
  - rewrite codons_step. cbn [map concat].
    rewrite length_app, replacement_length, IH. reflexivity.
Qed.

(** X13. Codon optimisation keeps positions: with integer indices
    [0 <= start <= end <= len], CODON_OPTIMIZATION returns the sequence
    with the region between them replaced by [replace_codons] of it, which
    has the length of the region; the bases before and after it are kept
    and the sequence keeps its length. *)
Theorem codon_optimization_keeps_length (self : t) (original_seq : str)
        (s e : Z) :
  start_index self = JNum s ->
  end_index self = JNum e ->
  0 <= s <= e ->
  e <= Z.of_nat (length original_seq) ->
  exists optimized,
    modified_seq self original_seq
    = Ok (firstn (Z.to_nat s) original_seq ++ optimized
          ++ skipn (Z.to_nat e) original_seq)
    /\ optimized
       = replace_codons (firstn (Z.to_nat (e - s))
                                (skipn (Z.to_nat s) original_seq))
    /\ length optimized = Z.to_nat (e - s)
    /\ length (firstn (Z.to_nat s) original_seq ++ optimized
               ++ skipn (Z.to_nat e) original_seq)
       = length original_seq.
Proof.
  intros Hs He Hse Hlen. eexists. split; [|split; [reflexivity|]].
  - unfold modified_seq. rewrite Hs, He. cbn [slice_bound].
    cbn [mbind result_bind Py.bind].
    rewrite slice_to, slice_from, slice_between by lia. reflexivity.
  - assert (Hl : length (replace_codons
                           (firstn (Z.to_nat (e - s))
                                   (skipn (Z.to_nat s) original_seq)))
                 = Z.to_nat (e - s)).
    { rewrite replace_codons_length, length_firstn, length_skipn. lia. }
    split; [exact Hl|].
    rewrite !length_app, Hl, length_firstn, length_skipn. lia.
Qed.

End Codons.

Section Backbone.
Import PyStr ExtractBackboneOperation.

Lemma splitlines_line (l : str) :
  Forall (fun c => is_linebreak c = false) l ->
  forall line s,
    splitlines_from line (l ++ s) = splitlines_from (rev l ++ line) s.
Proof.
  induction 1 as [|c l Hc _ IH]; intros line s; [reflexivity|].
  cbn [app splitlines_from rev]. rewrite Hc, IH, <- app_assoc. reflexivity.
Qed.

Lemma splitlines_join (lines : list str) :
  Forall (fun l => l <> [] /\ Forall (fun c => is_linebreak c = false) l)
         lines ->
  splitlines (join [10] lines) = lines.
Proof.
  unfold splitlines.
  induction 1 as [|l lines [Hne Hl] Hrest IH]; [reflexivity|].
  destruct lines as [|l2 lines].
  - cbn [join]. pose proof (splitlines_line l Hl [] []) as H.
    rewrite !app_nil_r in H. rewrite H. cbn [splitlines_from].
    destruct (rev l) eqn:E.
    + apply (f_equal (@rev Z)) in E. rewrite rev_involutive in E.
      contradiction.
    + rewrite <- E, rev_involutive. reflexivity.
  - change (join [10] (l :: l2 :: lines))
      with (l ++ 10 :: join [10] (l2 :: lines)).
    rewrite splitlines_line by assumption. rewrite app_nil_r.
    cbn [splitlines_from]. change (is_linebreak 10) with true. cbn iota.
    rewrite rev_involutive. f_equal.
    destruct (join [10] (l2 :: lines)) as [|c' s'']; [discriminate IH|].
    exact IH.
Qed.

Lemma splitlines_from_lines (s : str) :
  forall line,
    Forall (fun c => is_linebreak c = false) line ->
    Forall (Forall (fun c => is_linebreak c = false))
           (splitlines_from line s).
Proof.
  assert (Hrev : forall line : str,
             Forall (fun c => is_linebreak c = false) line ->
             Forall (fun c => is_linebreak c = false) (rev line)).
  { intros line H. apply Forall_forall. intros c Hc.
    apply in_rev in Hc. revert c Hc. now apply Forall_forall. }
  assert (Hlen : forall n (s : str), (length s <= n)%nat ->
             forall line,
               Forall (fun c => is_linebreak c = false) line ->
               Forall (Forall (fun c => is_linebreak c = false))
                      (splitlines_from line s)).
  { induction n as [|n IH]; intros s0 Hn line Hline.
    - destruct s0; [|cbn in Hn; lia]. cbn.
      destruct line; repeat constructor. now apply (Hrev (z :: line)).
    - destruct s0 as [|c s']; cbn [splitlines_from].
      + destruct line; repeat constructor. now apply (Hrev (z :: line)).
      + cbn [length] in Hn. destruct (is_linebreak c) eqn:Hc.
        * constructor; [now apply Hrev|].
          destruct s' as [|c' s'']; [constructor|].
          cbn [length] in Hn.
          destruct ((c =? 13) && (c' =? 10));
            (apply IH; [cbn [length]; lia|constructor]).
        * apply IH; [lia|]. constructor; assumption. }
  intros line. apply (Hlen (length s)). lia.
Qed.

Lemma startswith_nonempty (line : str) :
  startswith line (lit "ATOM") = true -> line <> [].
Proof. intros H ->. discriminate. Qed.

(** X14. Backbone extraction: the lines of the text [extract_backbone]
    returns are lines of the input that pass its test, and extracting the
    backbone of that text returns it unchanged. *)
Theorem extract_backbone_idempotent (pdb_content : str) :
  extract_backbone (extract_backbone pdb_content)
  = extract_backbone pdb_content
  /\ Forall (fun line => is_backbone_line line = true
                         /\ line ∈ splitlines pdb_content)
            (splitlines (extract_backbone pdb_content)).
Proof.
  unfold extract_backbone.
  set (kept := List.filter is_backbone_line (splitlines pdb_content)).
  assert (Hkept : Forall (fun l => l <> []
                    /\ Forall (fun c => is_linebreak c = false) l) kept).
  { apply Forall_forall. intros l Hl. apply filter_In in Hl as [Hin Hb].
    split.
    - apply andb_prop in Hb as [Hs _]. now apply startswith_nonempty.
    - pose proof (splitlines_from_lines pdb_content [] ltac:(constructor))
        as Hall.
      rewrite Forall_forall in Hall. now apply Hall. }
  rewrite (splitlines_join _ Hkept). split.
  - f_equal. unfold kept. apply forallb_filter_id.
    apply forallb_forall. intros l Hl. now apply filter_In in Hl.
  - apply Forall_forall. intros l Hl. apply filter_In in Hl as [Hin Hb].
    split; [assumption | now apply list_elem_of_In].
Qed.

End Backbone.

(** ** The revisions endpoint of the provider *)

Section ProviderRevisionsFacts.
Import BioDesignMetadataLibrary History Provider.
Context `{U : Unicode} `{J : JsonCodec} `{D : DiffMatchPatch}
        `{B : BioPython}.


Lemma endswith_app (prefix s suffix : str) :
  endswith s suffix = true -> endswith (prefix ++ s) suffix = true.
Proof.
  unfold endswith. intros H. apply andb_prop in H as [H1 H2].
  apply bool_decide_eq_true in H1. apply Nat.leb_le in H2.
  apply andb_true_intro. split.
  - apply bool_decide_eq_true. rewrite length_app.
    replace (length prefix + length s - length suffix)%nat
      with (length prefix + (length s - length suffix))%nat by lia.
    rewrite skipn_app, skipn_all2 by lia.
    replace (length prefix + (length s - length suffix) - length prefix)%nat
      with (length s - length suffix)%nat by lia.
    exact H1.
  - apply Nat.leb_le. rewrite length_app. lia.
Qed.




(** X16. A record without the key [changelog]: the constructor of the
    record gives the field its default, so the order of a matching [.pdb]
    design is accepted; the [/revisions] endpoint indexes the dict read
    from the file and raises [KeyError] for the same pair. *)
Theorem revisions_need_changelog_key
        fs encryption_key design_file metadata_file token text d :
  design_file <> [] ->
  metadata_file <> [] ->
  endswith design_file (lit ".pdb") = true ->
  fs !! (lit "exported/" ++ metadata_file) = Some token ->
  decrypt_string encryption_key token = Ok text ->
  json_loads text = Ok (JObj d) ->
  Dict.get (lit "changelog") d = None ->
  place_order (G := genbank_of) fs encryption_key
              (Some design_file) (Some metadata_file)
  = Ok success_response ->
  ProviderRevisions.get_revisions fs encryption_key
    (Some design_file) (Some metadata_file)
  = Throw KeyError.
Proof.
  intros Hd Hmf Hpdb Hmeta Hdec Hj Hlog Horder.
  pose proof (endswith_app (lit "exported/") _ _ Hpdb) as Hends.
  destruct design_file as [|d0 dn]; [congruence|].
  destruct metadata_file as [|m0 mn]; [congruence|].
  unfold place_order in Horder. unfold ProviderRevisions.get_revisions.
  destruct (design_and_metadata_match (G := genbank_of) fs encryption_key
              (lit "exported/" ++ d0 :: dn) (lit "exported/" ++ m0 :: mn))
    as [matched|] eqn:Hm; [|discriminate].
  cbn [mbind result_bind Py.bind] in Horder.
  destruct matched; [|discriminate]. clear Horder.
  cbn [lift mbind outcome_bind Exc.bind negb].
  (* the design file has been read by the check *)
  assert (Hdesign : exists content,
             fs !! (lit "exported/" ++ d0 :: dn) = Some content).
  { revert Hm. unfold design_and_metadata_match, Fs.read.
    rewrite Hmeta. cbn [mbind result_bind Py.bind].
    rewrite Hdec. cbn [mbind result_bind Py.bind].
    rewrite Hj. cbn [mbind result_bind Py.bind].
    destruct (new_metadata (JObj d)); [|discriminate].
    cbn [mbind result_bind Py.bind]. rewrite Hends.
    destruct (fs !! (lit "exported/" ++ d0 :: dn)); [eauto|discriminate]. }
  destruct Hdesign as [content Hdesign].
  unfold ProviderRevisions.compute_revisions, Fs.read.
  rewrite Hmeta. cbn [lift mbind outcome_bind Exc.bind].
  rewrite Hdec. cbn [lift mbind outcome_bind Exc.bind].
  rewrite Hj. cbn [lift mbind outcome_bind Exc.bind].
  rewrite Hends, Hdesign. cbn [lift mbind outcome_bind Exc.bind getitem].
  rewrite Hlog. reflexivity.
Qed.

End ProviderRevisionsFacts.

(** * Concrete runs *)

(** The theorems above at concrete inputs, with the reference
    implementations of the interfaces. *)

Section Runs.
Import BioDesignMetadataLibrary History Reference.

Lemma crypto_round_trip_witness :
  let key := map byte_of_Z sample_key in
  let data := map byte_of_Z (lit "atgc") in
  Utf8.encode sample_key = Ok key
  /\ Cbc.valid_key key = true
  /\ length sample_iv = 16%nat
  /\ exists ct token,
       Cbc.encrypt key sample_iv (Pkcs7.pad data) = Ok ct
       /\ Utf8.decode (Base64.b64encode (sample_iv ++ ct))
          = Ok token
       /\ encrypt_string (Some sample_key) sample_iv
                         (lit "atgc") = Ok token
       /\ Base64.b64decode token = Ok (sample_iv ++ ct)
       /\ decrypt_string (Some sample_key) token
          = Ok (lit "atgc").
Proof.
  intros key data.
  assert (H1 : Utf8.encode sample_key = Ok key)
    by (vm_compute; reflexivity).
  assert (H2 : Cbc.valid_key key = true) by (vm_compute; reflexivity).
  assert (H3 : length sample_iv = 16%nat) by reflexivity.
  repeat (split; [assumption|]).
  exact (crypto_round_trip sample_key (lit "atgc") key sample_iv H1 H2 H3).
Defined.

Lemma token_non_repetition_witness :
  exists t1 t2,
    encrypt_string (Some sample_key) sample_iv
                   (lit "atgc") = Ok t1
    /\ encrypt_string (Some sample_key) other_iv
                      (lit "atgc") = Ok t2
    /\ sample_iv <> other_iv
    /\ t1 <> t2
    /\ exists d1 d2,
         Base64.b64decode t1 = Ok d1
         /\ firstn 16 d1 = sample_iv
         /\ Base64.b64decode t2 = Ok d2
         /\ firstn 16 d2 = other_iv.
Proof.
  eexists _, _.
  assert (H1 : encrypt_string (Some sample_key)
                 sample_iv (lit "atgc") = Ok _)
    by (vm_compute; reflexivity).
  assert (H2 : encrypt_string (Some sample_key)
                 other_iv (lit "atgc") = Ok _)
    by (vm_compute; reflexivity).
  assert (H3 : sample_iv <> other_iv)
    by (vm_compute; discriminate).
  split; [exact H1|]. split; [exact H2|]. split; [exact H3|].
  exact (token_non_repetition _ _ _ _ _ _ H1 H2 H3).
Defined.


(** The checksum of the design [ATGC] is the SHA-256 digest of [atgc]. *)
Example checksum_ATGC :
  calculate_checksum (lit "ATGC")
  = Ok (lit "7d8b3f80a85dc5bb35a3ec3141b4c0eba926264aa03e66db0d6557868ad2875a").
Proof. vm_compute. reflexivity. Qed.






Lemma revisions_ignore_patch_failures_witness :
  Forall well_formed stale_changelog
  /\ (exists revisions,
         compute_revisions (lit "gctga") stale_changelog = Ok revisions
         /\ length revisions = length stale_changelog)
  /\ forall flags,
      compute_revisions (D := with_flags flags) (lit "gctga") stale_changelog
      = compute_revisions (lit "gctga") stale_changelog.
Proof.
  assert (Hwf : Forall well_formed stale_changelog).
  { repeat constructor. eexists. split; [reflexivity|].
    right. eexists _, _. split; vm_compute; reflexivity. }
  split; [exact Hwf|].
  exact (revisions_ignore_patch_failures (lit "gctga") stale_changelog Hwf).
Defined.

(** The stale patch is reported as failed by [patch_apply] and the content
    is left as it was; [compute_revisions] returns all the same. *)
Example stale_patch_not_applied :
  (patches ← patch_fromText (compute_difference (lit "aaaa") (lit "cccc"));
   Ok (patch_apply patches (lit "gctga")))
  = Ok (lit "gctga", [false]).
Proof. vm_compute. reflexivity. Qed.


(** The scenario of the specification: the two revisions, newest first. *)
Example scenario_revisions :
  (revisions ← compute_revisions (lit "gctga")
                 (entries (lit "atgc") sample_steps);
   Ok (map (fun r => (revision r, design r, rev_operationCode r)) revisions))
  = Ok [ (2, lit "gctga", JStr (lit "DELETE"));
         (1, lit "atgctga", JStr (lit "APPEND")) ].
Proof. vm_compute. reflexivity. Qed.

Lemma mismatch_rejection_witness :
  exists m c,
    Provider.stored_metadata sample_exported (Some sample_key)
                             (lit "exported/metadata_d1.txt") = Ok m
    /\ Provider.design_content sample_exported (lit "exported/d2.gb")
       = Ok (lit "atgcc")
    /\ calculate_checksum (lit "atgcc") = Ok c
    /\ (Provider.design_and_metadata_match sample_exported (Some sample_key)
          (lit "exported/d2.gb") (lit "exported/metadata_d1.txt") = Ok true
        <-> designChecksum m = JStr c)
    /\ (designChecksum m <> JStr c ->
        Provider.design_and_metadata_match sample_exported (Some sample_key)
          (lit "exported/d2.gb") (lit "exported/metadata_d1.txt") = Ok false)
    /\ forall design_name metadata_name,
        design_name <> [] -> metadata_name <> [] ->
        lit "exported/d2.gb" = lit "exported/" ++ design_name ->
        lit "exported/metadata_d1.txt" = lit "exported/" ++ metadata_name ->
        Provider.place_order sample_exported (Some sample_key)
                             (Some design_name) (Some metadata_name)
        = Ok (if eq_str (designChecksum m) c then Provider.success_response
              else Provider.mismatch_response).
Proof.
  assert (Hok : is_ok (Provider.stored_metadata sample_exported
                         (Some sample_key) (lit "exported/metadata_d1.txt"))
                = true) by (vm_compute; reflexivity).
  destruct (Provider.stored_metadata sample_exported (Some sample_key)
              (lit "exported/metadata_d1.txt")) as [m|e] eqn:Em;
    [|discriminate Hok].
  assert (Hok' : is_ok (calculate_checksum (lit "atgcc")) = true)
    by (vm_compute; reflexivity).
  destruct (calculate_checksum (lit "atgcc")) as [c|e] eqn:Ec;
    [|discriminate Hok'].
  assert (Ed : Provider.design_content sample_exported (lit "exported/d2.gb")
               = Ok (lit "atgcc")) by (vm_compute; reflexivity).
  exists m, c. split; [reflexivity|]. split; [exact Ed|].
  split; [reflexivity|].
  exact (mismatch_rejection _ _ _ _ _ _ _ Em Ed Ec).
Defined.

(** The order for the design whose content differs from the record is
    refused with the mismatch message; the order for the design [ATGC],
    the content of the record in upper case, is accepted. *)
Example order_refused :
  Provider.place_order sample_exported (Some sample_key)
                       (Some (lit "d2.gb")) (Some (lit "metadata_d1.txt"))
  = Ok Provider.mismatch_response.
Proof. vm_compute. reflexivity. Qed.

Example order_accepted :
  Provider.place_order sample_exported (Some sample_key)
                       (Some (lit "d1.pdb")) (Some (lit "metadata_d1.txt"))
  = Ok Provider.success_response.
Proof. vm_compute. reflexivity. Qed.

(** Test vectors: SHA-256 of [abc]; AES-128, AES-192 and AES-256 on the
    block of FIPS 197, appendix C; the token of [atgc] under a 128-bit
    key, as the OpenSSL command line computes it. *)
Example sha256_abc :
  Sha256.hexdigest (map byte_of_Z (lit "abc"))
  = lit "ba7816bf8f01cfea414140de5dae2223b00361a396177a9cb410ff61f20015ad".
Proof. vm_compute. reflexivity. Qed.

Example aes_vectors :
  let key n := map byte_of_Z (map Z.of_nat (seq 0 n)) in
  let block := map (fun i => byte_of_Z (17 * Z.of_nat i)) (seq 0 16) in
  Hex.of_bytes (Aes.encrypt_block (key 16%nat) block)
  = lit "69c4e0d86a7b0430d8cdb78070b4c55a"
  /\ Hex.of_bytes (Aes.encrypt_block (key 24%nat) block)
     = lit "dda97ca4864cdfe06eaf70a0ec0d7191"
  /\ Hex.of_bytes (Aes.encrypt_block (key 32%nat) block)
     = lit "8ea2b7ca516745bfeafc49904b496089".
Proof. vm_compute. repeat split. Qed.

Example token_atgc :
  encrypt_string (Some sample_key) sample_iv (lit "atgc")
  = Ok (lit "AQIDBAUGBwgJCgsMDQ4PENvUSGHbBSNn/KvdsNXFnIs=").
Proof. vm_compute. reflexivity. Qed.

Lemma checksum_format_witness :
  exists c,
    calculate_checksum (lit "ATGC") = Ok c
    /\ length c = 64%nat
    /\ Forall (fun ch => 48 <= ch <= 57 \/ 97 <= ch <= 102) c.
Proof.
  assert (Hok : is_ok (calculate_checksum (lit "ATGC")) = true)
    by (vm_compute; reflexivity).
  destruct (calculate_checksum (lit "ATGC")) as [c|e] eqn:E;
    [|discriminate Hok].
  exists c. split; [reflexivity|]. exact (checksum_format _ _ E).
Defined.

Lemma crypto_failures_are_ValueErrors_witness :
  encrypt_string None sample_iv (lit "atgc") = Raise ValueError
  /\ is_ValueError ValueError = true
  /\ decrypt_string (Some sample_key) (lit "A") = Raise BinasciiError
  /\ is_ValueError BinasciiError = true.
Proof.
  assert (H1 : encrypt_string None sample_iv (lit "atgc") = Raise ValueError)
    by reflexivity.
  assert (H2 : decrypt_string (Some sample_key) (lit "A")
               = Raise BinasciiError) by (vm_compute; reflexivity).
  split; [exact H1|]. split.
  - exact (proj1 crypto_failures_are_ValueErrors _ _ _ _ H1).
  - split; [exact H2|].
    exact (proj2 crypto_failures_are_ValueErrors _ _ _ H2).
Defined.

Lemma unusable_key_rejected_witness :
  (forall k key,
      Some (lit "too short") = Some k -> Utf8.encode k = Ok key ->
      Cbc.valid_key key = false)
  /\ (forall iv S, exists e,
         encrypt_string (Some (lit "too short")) iv S = Raise e
         /\ is_ValueError e = true)
  /\ (forall token, exists e,
         decrypt_string (Some (lit "too short")) token = Raise e
         /\ is_ValueError e = true).
Proof.
  assert (H : forall k key,
             Some (lit "too short") = Some k -> Utf8.encode k = Ok key ->
             Cbc.valid_key key = false).
  { intros k key [= <-]. vm_compute. intros [= <-]. reflexivity. }
  split; [exact H|]. exact (unusable_key_rejected _ H).
Defined.

Lemma token_length_witness :
  exists token data,
    encrypt_string (Some sample_key) sample_iv (lit "atgc") = Ok token
    /\ Utf8.encode (lit "atgc") = Ok data
    /\ length token = (4 * ((16 + 16 * (length data / 16 + 1) + 2) / 3))%nat
    /\ Forall (fun c => c = 61 \/ is_Some (Base64.index (byte_of_Z c))) token.
Proof.
  assert (Hok : is_ok (encrypt_string (Some sample_key) sample_iv
                         (lit "atgc")) = true) by (vm_compute; reflexivity).
  destruct (encrypt_string (Some sample_key) sample_iv (lit "atgc"))
    as [token|e] eqn:E; [|discriminate Hok].
  destruct (token_length _ _ _ _ E) as (data & H).
  exists token, data. split; [reflexivity|]. exact H.
Defined.

Lemma revisions_shape_witness :
  exists revisions,
    compute_revisions (lit "gctga") (entries (lit "atgc") sample_steps)
    = Ok revisions
    /\ length revisions = length (entries (lit "atgc") sample_steps)
    /\ map revision revisions
       = rev (map Z.of_nat
                  (seq 1 (length (entries (lit "atgc") sample_steps))))
    /\ Forall2 (fun r operation =>
                  new_operation operation
                  = Ok {| operationCode := rev_operationCode r;
                          operationDetails := rev_operationDetails r;
                          change := rev_change r;
                          timestamp := rev_timestamp r;
                          tool := rev_tool r |})
               revisions (rev (entries (lit "atgc") sample_steps))
    /\ forall r rest, revisions = r :: rest -> design r = lit "gctga".
Proof.
  assert (Hok : is_ok (compute_revisions (lit "gctga")
                         (entries (lit "atgc") sample_steps)) = true)
    by (vm_compute; reflexivity).
  destruct (compute_revisions (lit "gctga")
              (entries (lit "atgc") sample_steps)) as [revisions|e] eqn:E;
    [|discriminate Hok].
  exists revisions. split; [reflexivity|].
  exact (revisions_shape _ _ _ E).
Defined.

Lemma revisions_chain_witness :
  exists revisions,
    compute_revisions (lit "gctga") (entries (lit "atgc") sample_steps)
    = Ok revisions
    /\ forall k r r',
        revisions !! k = Some r -> revisions !! S k = Some r' ->
        if truthy (rev_change r)
        then exists patches,
            patch_fromText_value (rev_change r) = Ok patches
            /\ design r' = fst (patch_apply patches (design r))
        else design r' = design r.
Proof.
  assert (Hok : is_ok (compute_revisions (lit "gctga")
                         (entries (lit "atgc") sample_steps)) = true)
    by (vm_compute; reflexivity).
  destruct (compute_revisions (lit "gctga")
              (entries (lit "atgc") sample_steps)) as [revisions|e] eqn:E;
    [|discriminate Hok].
  exists revisions. split; [reflexivity|].
  exact (revisions_chain _ _ _ E).
Defined.

Lemma revisions_malformed_entry_witness :
  JObj [(lit "operationCode", JStr (lit "APPEND"))]
    ∈ entries (lit "atgc") sample_steps
      ++ [JObj [(lit "operationCode", JStr (lit "APPEND"))]]
  /\ new_operation (JObj [(lit "operationCode", JStr (lit "APPEND"))])
     = Raise TypeError
  /\ TypeError = TypeError
  /\ exists e',
      compute_revisions (lit "gctga")
        (entries (lit "atgc") sample_steps
         ++ [JObj [(lit "operationCode", JStr (lit "APPEND"))]])
      = Raise e'.
Proof.
  assert (H1 : JObj [(lit "operationCode", JStr (lit "APPEND"))]
                 ∈ entries (lit "atgc") sample_steps
                   ++ [JObj [(lit "operationCode", JStr (lit "APPEND"))]])
    by (apply elem_of_app; right; left).
  assert (H2 : new_operation (JObj [(lit "operationCode",
                                      JStr (lit "APPEND"))])
               = Raise TypeError) by reflexivity.
  split; [exact H1|]. split; [exact H2|].
  exact (revisions_malformed_entry (lit "gctga") _ _ _ H1 H2).
Defined.

Ltac not_in :=
  let H := fresh in
  intros H; apply list_elem_of_In in H; vm_compute in H;
  intuition discriminate.

Lemma parse_cmd_and_args_round_trip_witness :
  (32 ∉ lit "INSERT")
  /\ Forall (fun kv => ((32 ∉ fst kv) /\ (61 ∉ fst kv))
                       /\ ((32 ∉ snd kv) /\ (61 ∉ snd kv)))
            [(lit "insert_sequence", lit "acgt"); (lit "insert_position", lit "5")]
  /\ MainBiodesign.parse_cmd_and_args
       (lit "INSERT insert_sequence=acgt insert_position=5")
     = Some (lit "INSERT",
             <[lit "insert_position" := lit "5"]>
               (<[lit "insert_sequence" := lit "acgt"]> ∅)).
Proof.
  assert (H1 : 32 ∉ lit "INSERT") by not_in.
  assert (H2 : Forall (fun kv => ((32 ∉ fst kv) /\ (61 ∉ fst kv))
                                 /\ ((32 ∉ snd kv) /\ (61 ∉ snd kv)))
                      [(lit "insert_sequence", lit "acgt");
                       (lit "insert_position", lit "5")]).
  { repeat constructor; cbn [fst snd]; not_in. }
  split; [exact H1|]. split; [exact H2|].
  exact (parse_cmd_and_args_round_trip _ _ H1 H2).
Defined.

Lemma parse_cmd_and_args_rejects_witness :
  PyStr.split 32 (lit "INSERT insert_position=5=6")
  = [lit "INSERT"; lit "insert_position=5=6"]
  /\ lit "insert_position=5=6" ∈ [lit "insert_position=5=6"]
  /\ length (PyStr.split 61 (lit "insert_position=5=6")) <> 2%nat
  /\ MainBiodesign.parse_cmd_and_args (lit "INSERT insert_position=5=6")
     = None
  /\ MainBiodesign.parse_cmd_and_args (lit "EXPORT include_metadata=True ")
     = None
  /\ MainBiodesign.parse_cmd_and_args (lit "OPEN  file_name=d1") = None.
Proof.
  assert (H1 : PyStr.split 32 (lit "INSERT insert_position=5=6")
               = [lit "INSERT"; lit "insert_position=5=6"])
    by (vm_compute; reflexivity).
  assert (H2 : lit "insert_position=5=6" ∈ [lit "insert_position=5=6"])
    by left.
  assert (H3 : length (PyStr.split 61 (lit "insert_position=5=6")) <> 2%nat)
    by (vm_compute; discriminate).
  split; [exact H1|]. split; [exact H2|]. split; [exact H3|]. split.
  - exact (proj1 parse_cmd_and_args_rejects _ _ _ _ H1 H2 H3).
  - split.
    + exact (proj1 (proj2 parse_cmd_and_args_rejects)
               (lit "EXPORT include_metadata=True")).
    + exact (proj2 (proj2 parse_cmd_and_args_rejects)
               (lit "OPEN") (lit "file_name=d1")).
Defined.

Lemma insert_then_delete_witness :
  0 <= 2 < Z.of_nat (length (lit "atgc"))
  /\ exists modified,
      InsertOperation.modified_seq
        {| InsertOperation.insert_position := 2;
           InsertOperation.insert_sequence := lit "tga" |} (lit "atgc")
      = Ok modified
      /\ modified
         = firstn (Z.to_nat 2) (lit "atgc") ++ lit "tga"
           ++ skipn (Z.to_nat 2) (lit "atgc")
      /\ DeleteOperation.modified_seq
           {| DeleteOperation.delete_start_position := 2;
              DeleteOperation.delete_end_position :=
                2 + Z.of_nat (length (lit "tga")) |} modified
         = Ok (lit "atgc").
Proof.
  assert (H : 0 <= 2 < Z.of_nat (length (lit "atgc"))) by (vm_compute; split; [discriminate|reflexivity]).
  split; [exact H|]. exact (insert_then_delete (lit "atgc") (lit "tga") 2 H).
Defined.

Lemma last_base_kept_witness :
  lit "atgc" <> []
  /\ (forall self,
         InsertOperation.modified_seq self (lit "atgc") = Ok (lit "atgatc") ->
         list.last (lit "atgatc") = list.last (lit "atgc"))
  /\ (forall self,
         DeleteOperation.modified_seq self (lit "atgc") = Ok (lit "atgatc") ->
         list.last (lit "atgatc") = list.last (lit "atgc")).
Proof.
  assert (H : lit "atgc" <> []) by discriminate.
  split; [exact H|]. exact (last_base_kept (lit "atgc") (lit "atgatc") H).
Defined.

Lemma codon_optimization_keeps_length_witness :
  let self := {| CodonOptimizeOperation.organism := JStr (lit "human");
                 CodonOptimizeOperation.start_index := JNum 3;
                 CodonOptimizeOperation.end_index := JNum 9 |} in
  CodonOptimizeOperation.start_index self = JNum 3
  /\ CodonOptimizeOperation.end_index self = JNum 9
  /\ 0 <= 3 <= 9
  /\ 9 <= Z.of_nat (length (lit "cccatgtgaccc"))
  /\ exists optimized,
      CodonOptimizeOperation.modified_seq self (lit "cccatgtgaccc")
      = Ok (firstn (Z.to_nat 3) (lit "cccatgtgaccc") ++ optimized
            ++ skipn (Z.to_nat 9) (lit "cccatgtgaccc"))
      /\ optimized
         = CodonOptimizeOperation.replace_codons
             (firstn (Z.to_nat (9 - 3))
                     (skipn (Z.to_nat 3) (lit "cccatgtgaccc")))
      /\ length optimized = Z.to_nat (9 - 3)
      /\ length (firstn (Z.to_nat 3) (lit "cccatgtgaccc") ++ optimized
                 ++ skipn (Z.to_nat 9) (lit "cccatgtgaccc"))
         = length (lit "cccatgtgaccc").
Proof.
  intros self.
  assert (H1 : CodonOptimizeOperation.start_index self = JNum 3)
    by reflexivity.
  assert (H2 : CodonOptimizeOperation.end_index self = JNum 9)
    by reflexivity.
  assert (H3 : 0 <= 3 <= 9) by lia.
  assert (H4 : 9 <= Z.of_nat (length (lit "cccatgtgaccc")))
    by (vm_compute; discriminate).
  repeat (split; [assumption|]).
  exact (codon_optimization_keeps_length self _ 3 9 H1 H2 H3 H4).
Defined.

(** The commands, edits and translations of the examples in the sources. *)
Example command_parsed :
  MainBiodesign.parse_cmd_and_args (lit "OPEN file_name=sample_seq")
  = Some (lit "OPEN", {[ lit "file_name" := lit "sample_seq" ]}).
Proof. vm_compute. reflexivity. Qed.

Example codons_replaced :
  CodonOptimizeOperation.replace_codons (lit "atgtgacccga")
  = lit "gtgtaacccga".
Proof. vm_compute. reflexivity. Qed.

Example protein_translated :
  TranslateProteinOperation.translate_protein (lit "MKx*")
  = lit "ATGATGAAATAATAA".
Proof. vm_compute. reflexivity. Qed.

Example backbone_extracted :
  ExtractBackboneOperation.extract_backbone
    (lit "HEADER" ++ [10]
     ++ lit "ATOM      1  N   MET A   1" ++ [13; 10]
     ++ lit "ATOM      2  CB  MET A   1" ++ [10]
     ++ lit "HETATM    3  O   HOH A   2" ++ [10]
     ++ lit "ATOM      4  CA  MET A   1" ++ [10])
  = lit "ATOM      1  N   MET A   1" ++ [10]
    ++ lit "ATOM      4  CA  MET A   1".
Proof. vm_compute. reflexivity. Qed.

Ltac lookup_file :=
  repeat (rewrite lookup_insert_ne
            by (let H := fresh in intros H; vm_compute in H; discriminate H));
  first [ apply lookup_insert_eq | apply lookup_singleton_eq ].


Lemma revisions_need_changelog_key_witness :
  lit "d1.pdb" <> []
  /\ lit "metadata_d1.txt" <> []
  /\ Provider.endswith (lit "d1.pdb") (lit ".pdb") = true
  /\ Samples.bare_exported !! (lit "exported/" ++ lit "metadata_d1.txt")
     = Some (Samples.token_of (json_dumps (JObj Samples.bare_record)))
  /\ decrypt_string (Some sample_key)
                    (Samples.token_of (json_dumps (JObj Samples.bare_record)))
     = Ok (json_dumps (JObj Samples.bare_record))
  /\ json_loads (json_dumps (JObj Samples.bare_record)) = Ok (JObj Samples.bare_record)
  /\ Dict.get (lit "changelog") Samples.bare_record = None
  /\ Provider.place_order (G := genbank_of) Samples.bare_exported (Some sample_key)
       (Some (lit "d1.pdb")) (Some (lit "metadata_d1.txt"))
     = Ok Provider.success_response
  /\ ProviderRevisions.get_revisions Samples.bare_exported (Some sample_key)
       (Some (lit "d1.pdb")) (Some (lit "metadata_d1.txt"))
     = Throw KeyError.
Proof.
  assert (H1 : lit "d1.pdb" <> []) by discriminate.
  assert (H2 : lit "metadata_d1.txt" <> []) by discriminate.
  assert (H3 : Provider.endswith (lit "d1.pdb") (lit ".pdb") = true)
    by (vm_compute; reflexivity).
  assert (H4 : Samples.bare_exported !! (lit "exported/" ++ lit "metadata_d1.txt")
               = Some (Samples.token_of (json_dumps (JObj Samples.bare_record)))).
  { unfold Samples.bare_exported.
    generalize (Samples.token_of (json_dumps (JObj Samples.bare_record))). intros token.
    lookup_file. }
  assert (H5 : decrypt_string (Some sample_key)
                 (Samples.token_of (json_dumps (JObj Samples.bare_record)))
               = Ok (json_dumps (JObj Samples.bare_record)))
    by (vm_compute; reflexivity).
  assert (H6 : json_loads (json_dumps (JObj Samples.bare_record))
               = Ok (JObj Samples.bare_record)) by apply json_loads_dumps.
  assert (H7 : Dict.get (lit "changelog") Samples.bare_record = None)
    by (vm_compute; reflexivity).
  assert (H8 : Provider.place_order (G := genbank_of) Samples.bare_exported
                 (Some sample_key)
                 (Some (lit "d1.pdb")) (Some (lit "metadata_d1.txt"))
               = Ok Provider.success_response)
    by (vm_compute; reflexivity).
  split; [exact H1|]. split; [exact H2|]. split; [exact H3|].
  split; [exact H4|]. split; [exact H5|]. split; [exact H6|].
  split; [exact H7|]. split; [exact H8|].
  exact (revisions_need_changelog_key _ _ _ _ _ _ _ H1 H2 H3 H4 H5 H6 H7 H8).
Defined.

End Runs.
